(** * GithubAlerter: the alert classification-and-relay pipeline

    A shallow embedding of [src/alerter/src/alerter/alerters/github.py]
    (class [GithubAlerter]) and the properties of its message handler,
    its publishing queue and its consumption loop.

    Conventions of the embedding.
    - A decoded JSON payload is a value of [json]; Python objects ([dict])
      are finite maps from strings.
    - An expression that may raise evaluates to [exn + A].
    - Methods of the alerter run in the monad [M]: they take the alerter
      (its publishing queue, the broker it talks to, the record of what it
      did) and give back an outcome and the alerter afterwards.  An outcome
      is a returned value, a raised exception, or [Blocks] when the call
      never returns (a [queue.Queue] operation that waits, a consumer that
      waits for the next delivery).
    - Everything the alerter does to the outside (log records, broker
      calls, queue operations) is appended, in program order, to [trace]. *)

From stdpp Require Import gmap strings list pretty.
From Stdlib Require Import ZArith SpecFloat Lia.

Set Warnings "-register-all".
Set Default Proof Using "Type".

Open Scope string_scope.
Open Scope list_scope.
Open Scope Z_scope.

(** ** Python values and exceptions *)

(** What [json.loads] returns.  A float is carried by its exact binary64
    value ([spec_float], precision 53, [emax] 1024). *)
Inductive json :=
| JNull
| JBool (b : bool)
| JInt (z : Z)
| JFloat (f : spec_float)
| JStr (s : string)
| JArr (l : list json)
| JObj (m : gmap string json).

(** The exceptions that occur in the alerter.  [AMQPChannelError] and
    [AMQPConnectionError] stand for any instance of the pika class of that
    name (or of a subclass); [OtherException] for any other subclass of
    [Exception]; [NotAnException] for a [BaseException] outside of
    [Exception] ([SystemExit], [KeyboardInterrupt]); [JSONDecodeError] for
    whatever [json.loads(body.decode())] raises on bytes that are not the
    encoding of a JSON text. *)
Inductive exn :=
| KeyError (key : string)
| TypeError
| ValueError
| OverflowError
| ZeroDivisionError
| JSONDecodeError
| ReceivedUnexpectedDataException
| MessageWasNotDeliveredException
| AMQPChannelError
| AMQPConnectionError
| OtherException (name : string)
| NotAnException (name : string).

(** [isinstance(e, Exception)] *)
Definition is_Exception (e : exn) : bool :=
  match e with
  | NotAnException _ => false
  | _ => true
  end.

(** Expressions that may raise. *)
Definition ebind {A B} (x : exn + A) (f : A -> exn + B) : exn + B :=
  match x with
  | inl e => inl e
  | inr a => f a
  end.

Declare Scope expr_scope.
Delimit Scope expr_scope with expr.
Notation "x <- c1 ; c2" := (ebind c1 (fun x => c2))
  (at level 100, c1 at next level, right associativity) : expr_scope.

(** [needle in hay] on two [str]: substring test. *)
Fixpoint str_contains (needle hay : string) : bool :=
  if String.prefix needle hay then true
  else match hay with
       | EmptyString => false
       | String _ rest => str_contains needle rest
       end.

(** [k in v] for a [str] key [k]: key membership on a dict, element
    membership on a list, substring on a str, [TypeError] on the rest. *)
Definition py_in (k : string) (v : json) : exn + bool :=
  match v with
  | JObj m => inr (match m !! k with Some _ => true | None => false end)
  | JArr l => inr (existsb (fun x => match x with
                                     | JStr s => String.eqb k s
                                     | _ => false
                                     end) l)
  | JStr s => inr (str_contains k s)
  | _ => inl TypeError
  end.

(** [v[k]] for a [str] key [k]: only a dict can be subscripted by a str. *)
Definition py_getitem (v : json) (k : string) : exn + json :=
  match v with
  | JObj m => match m !! k with
              | Some x => inr x
              | None => inl (KeyError k)
              end
  | _ => inl TypeError
  end.

Notation "v .[ k ]" := (py_getitem v k)
  (at level 1, left associativity, format "v .[ k ]").

(** [float(z)] for an int: correctly rounded, [OverflowError] when the
    int is too large for a binary64. *)
Definition float_of_int (z : Z) : exn + spec_float :=
  match binary_normalize 53 1024 z 0 false with
  | S754_infinity _ => inl OverflowError
  | f => inr f
  end.

(** [int(f)] for a float: truncation towards zero. *)
Definition int_of_float (f : spec_float) : exn + Z :=
  match f with
  | S754_zero _ => inr 0
  | S754_infinity _ => inl OverflowError
  | S754_nan => inl ValueError
  | S754_finite s m e => inr (cond_Zopp s (Z.shiftl (Z.pos m) e))
  end.

(** [str(i)] for an int. *)
Definition py_str (i : Z) : string := pretty i.

(** [range(0, n)] for an int [n]. *)
Definition range0 (n : Z) : list Z := Z.of_nat <$> seq 0 (Z.to_nat n).

(** ** Alerts and queue entries *)

(** Modelled from the spec: the alert classes [NewGitHubReleaseAlert] and
    [CannotAccessGitHubPageAlert] (src/alerter/alerts/github_alerts.py) are
    not among the sources.  The [alert_data] of an alert is carried as the
    class and the constructor arguments it was built from: the severity,
    the fields proper to the kind of alert, the timestamp, the parent id
    and the id of the repository. *)
Inductive alert_data :=
| NewGitHubReleaseAlert
    (repo_name release_name tag_name : json) (severity : string)
    (last_monitored repo_parent_id repo_id : json)
| CannotAccessGitHubPageAlert
    (repo_name : json) (severity : string)
    (time repo_parent_id repo_id : json).

Definition is_release_alert (a : alert_data) : bool :=
  match a with
  | NewGitHubReleaseAlert _ _ _ _ _ _ _ => true
  | CannotAccessGitHubPageAlert _ _ _ _ _ => false
  end.

(** An element of the publishing queue; [copy.deepcopy] of a value is the
    value. *)
Record entry := Entry {
  exchange : string;
  routing_key : string;
  data : alert_data
}.

(** ** The alerter and what it does *)

Inductive log_level := DEBUG | INFO | ERROR.

(** The records the alerter writes to its logger, by what they report. *)
Inductive log_record :=
| Processing (data_received : json)
| Classified (alert : alert_data)
| ErrorProcessing (data_received : json)
| ExceptionInfo (e : exn)
| Adding (alert : alert_data)
| Added (alert : alert_data)
| Text (message : string).

(** The calls on [self.rabbitmq], with their arguments. *)
Inductive rabbit_call :=
| connect_till_successful
| exchange_declare (exchange exchange_type : string)
    (passive durable auto_delete internal : bool)
| queue_declare (queue : string) (passive durable exclusive auto_delete : bool)
| queue_bind (queue exchange routing_key : string)
| basic_qos (prefetch_count : Z)
| confirm_delivery
| basic_consume (queue : string) (auto_ack exclusive : bool)
| basic_ack (delivery_tag : Z) (multiple : bool)
| basic_publish_confirm (message : entry).

Inductive event :=
| Log (level : log_level) (record : log_record)
| LogAndPrint (message : string)
| Rabbit (call : rabbit_call)
| StartConsuming
| QueueGet (item : entry)
| QueuePut (item : entry).

(** The alerter: its [publishing_queue] (a [queue.Queue], oldest item
    first, with its [maxsize]), the broker behind [self.rabbitmq], and the
    trace of what has been done so far.  The broker is any script: [broker n]
    tells whether the call number [n] on [self.rabbitmq] raises, and what
    ([start_consuming] apart, whose course is given by the deliveries). *)
#[projections(primitive)] Record alerter := Alerter {
  publishing_queue : list entry;
  maxsize : Z;
  broker : nat -> option exn;
  broker_calls : nat;
  trace : list event
}.

Definition set_queue (q : list entry) (s : alerter) : alerter :=
  {| publishing_queue := q; maxsize := maxsize s; broker := broker s;
     broker_calls := broker_calls s; trace := trace s |}.

Definition record_events (evs : list event) (s : alerter) : alerter :=
  {| publishing_queue := publishing_queue s; maxsize := maxsize s;
     broker := broker s; broker_calls := broker_calls s;
     trace := trace s ++ evs |}.

Definition record_event (ev : event) : alerter -> alerter := record_events [ev].

Definition count_call (s : alerter) : alerter :=
  {| publishing_queue := publishing_queue s; maxsize := maxsize s;
     broker := broker s; broker_calls := S (broker_calls s);
     trace := trace s |}.

Inductive outcome (A : Type) :=
| Returns (a : A)
| Raises (e : exn)
| Blocks.
Arguments Returns {A} a.
Arguments Raises {A} e.
Arguments Blocks {A}.

Definition M (A : Type) : Type := alerter -> outcome A * alerter.

Definition mret {A} (a : A) : M A := fun s => (Returns a, s).

Definition mbind {A B} (m : M A) (f : A -> M B) : M B := fun s =>
  match m s with
  | (Returns a, s') => f a s'
  | (Raises e, s') => (Raises e, s')
  | (Blocks, s') => (Blocks, s')
  end.

Definition raise {A} (e : exn) : M A := fun s => (Raises e, s).

Definition blocks {A} : M A := fun s => (Blocks, s).

Definition lift {A} (x : exn + A) : M A :=
  match x with
  | inl e => raise e
  | inr a => mret a
  end.

Definition emit (ev : event) : M unit := fun s => (Returns tt, record_event ev s).

(** [try: body except ...: ...]: [handler e] is the suite of the first
    [except] clause that matches [e], [None] when no clause matches. *)
Definition try_except {A} (body : M A) (handler : exn -> option (M A)) : M A :=
  fun s =>
    match body s with
    | (Raises e, s') =>
        match handler e with
        | Some suite => suite s'
        | None => (Raises e, s')
        end
    | r => r
    end.

Declare Scope alerter_scope.
Delimit Scope alerter_scope with M.
Notation "x <- c1 ;; c2" := (mbind c1 (fun x => c2))
  (at level 100, c1 at next level, right associativity) : alerter_scope.
Notation "c1 ;; c2" := (mbind c1 (fun _ => c2))
  (at level 100, right associativity) : alerter_scope.

(** [for x in l: f(x)] *)
Fixpoint for_each {A} (f : A -> M unit) (l : list A) : M unit :=
  match l with
  | [] => mret tt
  | x :: rest => (f x ;; for_each f rest)%M
  end.

Definition logger (level : log_level) (record : log_record) : M unit :=
  emit (Log level record).

(** [self.logger.exception(e)] *)
Definition logger_exception (e : exn) : M unit := logger ERROR (ExceptionInfo e).

(** A call on [self.rabbitmq]: it is recorded, and raises if the broker
    says so. *)
Definition rabbitmq (call : rabbit_call) : M unit := fun s =>
  let s' := count_call (record_event (Rabbit call) s) in
  match broker s (broker_calls s) with
  | None => (Returns tt, s')
  | Some e => (Raises e, s')
  end.

(** *** [queue.Queue] *)

(** [Queue.full()]: [0 < maxsize <= qsize()]; a queue whose [maxsize] is
    not positive is never full. *)
Definition is_full (s : alerter) : bool :=
  (0 <? maxsize s) && (maxsize s <=? Z.of_nat (length (publishing_queue s))).

Definition queue_full : M bool := fun s => (Returns (is_full s), s).

(** [Queue.get()]: removes and returns the oldest item, waits while the
    queue is empty. *)
Definition queue_get : M entry := fun s =>
  match publishing_queue s with
  | [] => (Blocks, s)
  | item :: rest => (Returns item, record_event (QueueGet item) (set_queue rest s))
  end.

(** [Queue.put(item)]: appends the item, waits while the queue is full. *)
Definition queue_put (item : entry) : M unit := fun s =>
  if is_full s then (Blocks, s)
  else (Returns tt,
        record_event (QueuePut item) (set_queue (publishing_queue s ++ [item]) s)).

(** ** [round(maxsize / 5)] *)

Definition float_of_Z (z : Z) : spec_float :=
  match z with
  | Z0 => S754_zero false
  | Z.pos m => S754_finite false m 0
  | Z.neg m => S754_finite true m 0
  end.

(** [a / b] on two ints: the binary64 nearest to the quotient (ties to
    even). *)
Definition py_truediv (a b : Z) : exn + spec_float :=
  if (b =? 0)%Z then inl ZeroDivisionError
  else match SFdiv 53 1024 (float_of_Z a) (float_of_Z b) with
       | S754_infinity _ => inl OverflowError
       | f => inr f
       end.

(** [round(f)] on a float: the nearest int, ties to the even one. *)
Definition py_round (f : spec_float) : exn + Z :=
  match f with
  | S754_zero _ => inr 0
  | S754_infinity _ => inl OverflowError
  | S754_nan => inl ValueError
  | S754_finite s m e =>
      if (0 <=? e)%Z then inr (cond_Zopp s (Z.shiftl (Z.pos m) e))
      else
        let unit := Z.shiftl 1 (- e) in
        let q := (Z.pos m / unit)%Z in
        let r := (Z.pos m mod unit)%Z in
        let up := match (2 * r ?= unit)%Z with
                  | Lt => false
                  | Eq => Z.odd q
                  | Gt => true
                  end in
        inr (cond_Zopp s (if up then q + 1 else q))
  end.

(** The expression [round(self.publishing_queue.maxsize / 5)]. *)
Definition prefetch_count_of (maxsize : Z) : exn + Z :=
  (f <- py_truediv maxsize 5; py_round f)%expr.

(** ** Deliveries *)

(** The bytes of a message, by what [json.loads(body.decode())] makes of
    them. *)
Inductive message_body :=
| Undecodable
| Encodes (data_received : json).

Definition json_loads (body : message_body) : exn + json :=
  match body with
  | Undecodable => inl JSONDecodeError
  | Encodes j => inr j
  end.

(** What happens next inside [self.rabbitmq.start_consuming()]: a message
    is handed to the [on_message_callback], or the call raises by itself,
    or the call returns. *)
Inductive delivery :=
| Delivered (delivery_tag : Z) (body : message_body)
| Failed (e : exn)
| Cancelled.

(** ** Sample payloads and alerters *)

Definition obj (fields : list (string * json)) : json := JObj (list_to_map fields).

Definition sample_meta : json :=
  obj [("repo_name", JStr "x"); ("last_monitored", JInt 100);
       ("repo_parent_id", JStr "p"); ("repo_id", JStr "r")].

Definition sample_release (release_name tag_name : string) : json :=
  obj [("release_name", JStr release_name); ("tag_name", JStr tag_name)].

Definition sample_counters (current previous : Z) : json :=
  obj [("current", JInt current); ("previous", JInt previous)].

Definition sample_data (current previous : Z) (releases : json) : json :=
  obj [("no_of_releases", sample_counters current previous);
       ("releases", releases)].

Definition sample_result (current previous : Z) (releases : json) : json :=
  obj [("meta_data", sample_meta); ("data", sample_data current previous releases)].

(** Three releases now, one before, and the two new releases. *)
Definition two_releases : json :=
  obj [("0", sample_release "a" "v1"); ("1", sample_release "b" "v2")].

Definition sample_success : json :=
  obj [("result", sample_result 3 1 two_releases)].

(** Three releases now, one before, but only the release at index 0. *)
Definition one_release : json := obj [("0", sample_release "a" "v1")].

Definition sample_partial : json :=
  obj [("result", sample_result 3 1 one_release)].


Definition sample_error_meta : json :=
  obj [("repo_name", JStr "x"); ("time", JInt 100);
       ("repo_parent_id", JStr "p"); ("repo_id", JStr "r")].

Definition sample_error : json := obj [("meta_data", sample_error_meta)].

Definition sample_failure_fields : gmap string json :=
  list_to_map [("error", sample_error)].

Definition sample_both_fields : gmap string json :=
  list_to_map [("result", sample_result 3 1 two_releases);
               ("error", sample_error)].

Definition sample_alert (name : string) : alert_data :=
  CannotAccessGitHubPageAlert (JStr name) "ERROR" (JInt 100) (JStr "p") (JStr "r").

Definition sample_entry (name : string) : entry :=
  {| exchange := "alert"; routing_key := "alert_router.github";
     data := sample_alert name |}.

(** A broker that accepts every call. *)
Definition reliable_broker : nat -> option exn := fun _ => None.



Definition sample_alerter (queue : list entry) (maxsize : Z)
    (broker : nat -> option exn) : alerter :=
  {| publishing_queue := queue; maxsize := maxsize; broker := broker;
     broker_calls := 0; trace := [] |}.

(** No [str] is read as an int. *)
Definition no_int_of_str : string -> option Z := fun _ => None.

Section GithubAlerter.

(** [ALERT_EXCHANGE] of src/utils/constants.py, which is not among the
    sources. *)
Variable ALERT_EXCHANGE : string.

(** The built-in [int] applied to a [str]: the integer that the string
    denotes, if it denotes one. *)
Variable int_of_str : string -> option Z.

(** [int(v)] *)
Definition py_int (v : json) : exn + Z :=
  match v with
  | JBool b => inr (if b then 1 else 0)
  | JInt z => inr z
  | JFloat f => int_of_float f
  | JStr s => match int_of_str s with
              | Some z => inr z
              | None => inl ValueError
              end
  | JNull | JArr _ | JObj _ => inl TypeError
  end.

(** A bool or an int as the int it is, a float as itself. *)
Definition as_number (v : json) : option (Z + spec_float) :=
  match v with
  | JBool b => Some (inl (if b then 1 else 0))
  | JInt z => Some (inl z)
  | JFloat f => Some (inr f)
  | _ => None
  end.

(** [a - b]: an int on ints (and bools), a float as soon as one side is a
    float, [TypeError] on anything else. *)
Definition py_sub (a b : json) : exn + json :=
  match as_number a, as_number b with
  | Some (inl x), Some (inl y) => inr (JInt (x - y))
  | Some (inl x), Some (inr g) =>
      (f <- float_of_int x; inr (JFloat (SFsub 53 1024 f g)))%expr
  | Some (inr f), Some (inl y) =>
      (g <- float_of_int y; inr (JFloat (SFsub 53 1024 f g)))%expr
  | Some (inr f), Some (inr g) => inr (JFloat (SFsub 53 1024 f g))
  | _, _ => inl TypeError
  end.

(** [range(0, n)]: [n] has to be an int (a bool is one). *)
Definition py_range0 (n : json) : exn + list Z :=
  match n with
  | JInt z => inr (range0 z)
  | JBool b => inr (range0 (if b then 1 else 0))
  | _ => inl TypeError
  end.

(** ** Classification: the [try] block of [_process_data] *)

(** One [NewGitHubReleaseAlert(...)] call of the loop, arguments evaluated
    left to right, and its [alert_data]. *)
Definition release_alert (meta data : json) (i : Z) : exn + alert_data :=
  (repo_name <- meta.["repo_name"];
   releases <- data.["releases"];
   release <- releases.[py_str i];
   release_name <- release.["release_name"];
   releases' <- data.["releases"];
   release' <- releases'.[py_str i];
   tag_name <- release'.["tag_name"];
   last_monitored <- meta.["last_monitored"];
   repo_parent_id <- meta.["repo_parent_id"];
   repo_id <- meta.["repo_id"];
   inr (NewGitHubReleaseAlert repo_name release_name tag_name "INFO"
          last_monitored repo_parent_id repo_id))%expr.

(** The [for] loop: [data_for_alerting] grows by one alert per index, and
    keeps what it has when an iteration raises. *)
Fixpoint release_alerts (meta data : json) (indices : list Z)
    (data_for_alerting : list alert_data) : list alert_data * option exn :=
  match indices with
  | [] => (data_for_alerting, None)
  | i :: rest =>
      match release_alert meta data i with
      | inl e => (data_for_alerting, Some e)
      | inr alert => release_alerts meta data rest (data_for_alerting ++ [alert])
      end
  end.

(** The [CannotAccessGitHubPageAlert(...)] call and its [alert_data]. *)
Definition cannot_access_alert (data_received : json) : exn + alert_data :=
  (error <- data_received.["error"];
   meta_data <- error.["meta_data"];
   repo_name <- meta_data.["repo_name"];
   time <- meta_data.["time"];
   repo_parent_id <- meta_data.["repo_parent_id"];
   repo_id <- meta_data.["repo_id"];
   inr (CannotAccessGitHubPageAlert repo_name "ERROR" time
          repo_parent_id repo_id))%expr.

(** What is read before the loop of the ['result'] branch: [meta], [data]
    and the indices to visit ([[]] when the guard of the [if] is false). *)
Definition result_header (data_received : json)
    : exn + (json * json * list Z) :=
  (result <- data_received.["result"];
   meta <- result.["meta_data"];
   result' <- data_received.["result"];
   data <- result'.["data"];
   no_of_releases <- data.["no_of_releases"];
   current <- no_of_releases.["current"];
   no_of_releases' <- data.["no_of_releases"];
   previous <- no_of_releases'.["previous"];
   match previous with
   | JNull => inr (meta, data, [])
   | _ =>
       c <- py_int current;
       p <- py_int previous;
       if (p <? c)%Z then
         delta <- py_sub current previous;
         indices <- py_range0 delta;
         inr (meta, data, indices)
       else inr (meta, data, [])
   end)%expr.

(** The ['result'] branch. *)
Definition classify_result (data_received : json)
    : list alert_data * option exn :=
  match result_header data_received with
  | inl e => ([], Some e)
  | inr (meta, data, indices) => release_alerts meta data indices []
  end.

(** The ['error'] branch. *)
Definition classify_error (data_received : json)
    : list alert_data * option exn :=
  match cannot_access_alert data_received with
  | inl e => ([], Some e)
  | inr alert => ([alert], None)
  end.

(** The body of the [try]: the value of [data_for_alerting] when the body
    is left, and the exception that left it, if any. *)
Definition classify (data_received : json) : list alert_data * option exn :=
  match py_in "result" data_received with
  | inl e => ([], Some e)
  | inr true => classify_result data_received
  | inr false =>
      match py_in "error" data_received with
      | inl e => ([], Some e)
      | inr true => classify_error data_received
      | inr false => ([], Some ReceivedUnexpectedDataException)
      end
  end.

(** ** The methods of [GithubAlerter] *)

Definition queue_entry (alert : alert_data) : entry :=
  {| exchange := ALERT_EXCHANGE;
     routing_key := "alert_router.github";
     data := alert |}.

Fixpoint _place_latest_data_on_queue (data_list : list alert_data) : M unit :=
  match data_list with
  | [] => mret tt
  | alert :: rest =>
      (logger DEBUG (Adding alert) ;;
       full <- queue_full ;;
       (if full then (_ <- queue_get ;; mret tt) else mret tt) ;;
       queue_put (queue_entry alert) ;;
       logger DEBUG (Added alert) ;;
       _place_latest_data_on_queue rest)%M
  end.

(** Modelled from the spec: [_send_data] is a method of the base class
    [Alerter] (src/alerter/alerters/alerter.py), which is not among the
    sources.  While the queue is not empty: the front entry is published
    with delivery confirmation; when the delivery is confirmed the entry is
    removed and the next one is tried; when the publication raises (the
    broker did not confirm, or any other error) the method stops there with
    the entry still at the front. *)
Fixpoint send_all (pending : list entry) : M unit :=
  match pending with
  | [] => mret tt
  | item :: rest =>
      (rabbitmq (basic_publish_confirm item) ;;
       _ <- queue_get ;;
       send_all rest)%M
  end.

Definition _send_data : M unit := fun s => send_all (publishing_queue s) s.

(** The [except] clauses around [self._send_data()]. *)
Definition on_send_error (e : exn) : option (M unit) :=
  match e with
  | MessageWasNotDeliveredException => Some (logger_exception e)
  | _ => None
  end.

(** The [try ... except Exception] statement of [_process_data]: each
    alert is logged as it is appended; the statement leaves
    [data_for_alerting] and [processing_error]. *)
Definition classification_attempt (data_received : json)
    : M (list alert_data * bool) :=
  let '(data_for_alerting, raised) := classify data_received in
  (for_each (fun alert => logger DEBUG (Classified alert)) data_for_alerting ;;
   match raised with
   | None => mret (data_for_alerting, false)
   | Some e =>
       if is_Exception e then
         logger ERROR (ErrorProcessing data_received) ;;
         logger_exception e ;;
         mret (data_for_alerting, true)
       else raise e
   end)%M.

(** [_process_data] up to the enqueueing (lines 62 to 112). *)
Definition classify_ack_enqueue (delivery_tag : Z) (body : message_body)
    : M unit :=
  (data_received <- lift (json_loads body) ;;
   logger INFO (Processing data_received) ;;
   locals <- classification_attempt data_received ;;
   let '(data_for_alerting, processing_error) := locals in
   rabbitmq (basic_ack delivery_tag false) ;;
   if processing_error then mret tt
   else _place_latest_data_on_queue data_for_alerting)%M.

Definition _process_data (delivery_tag : Z) (body : message_body) : M unit :=
  (classify_ack_enqueue delivery_tag body ;;
   try_except _send_data on_send_error)%M.

Definition _initialize_alerter : M unit :=
  (rabbitmq connect_till_successful ;;
   logger INFO (Text "Creating 'alert' exchange") ;;
   rabbitmq (exchange_declare ALERT_EXCHANGE "topic" false true false false) ;;
   logger INFO (Text "Creating queue 'github_alerter_queue'") ;;
   rabbitmq (queue_declare "github_alerter_queue" false true false false) ;;
   logger INFO (Text "Binding queue 'github_alerter_queue' to exchange 'alerter' with routing key 'alerter.github'") ;;
   rabbitmq (queue_bind "github_alerter_queue" ALERT_EXCHANGE "alerter.github") ;;
   prefetch_count <- (fun s => lift (prefetch_count_of (maxsize s)) s) ;;
   rabbitmq (basic_qos prefetch_count) ;;
   logger INFO (Text "Setting delivery confirmation on RabbitMQ channel") ;;
   rabbitmq confirm_delivery ;;
   logger INFO (Text "Declaring consuming intentions") ;;
   rabbitmq (basic_consume "github_alerter_queue" false false))%M.

(** One step inside [start_consuming()]; the value tells whether the call
    goes on consuming ([true]) or has returned ([false]). *)
Definition consume (d : delivery) : M bool :=
  match d with
  | Delivered delivery_tag body => (_process_data delivery_tag body ;; mret true)%M
  | Failed e => raise e
  | Cancelled => mret false
  end.

(** The [except] clauses of the loop of [_alert_classifier_process]:
    returning is [continue], raising leaves the loop. *)
Definition on_consuming_error (e : exn) : M unit :=
  match e with
  | AMQPChannelError => mret tt
  | AMQPConnectionError => raise e
  | MessageWasNotDeliveredException => logger_exception e
  | NotAnException _ => raise e
  | _ => (logger_exception e ;; raise e)%M
  end.

(** [x = try m] as a value: what [m] returned or raised. *)
Definition attempt {A} (m : M A) : M (exn + A) := fun s =>
  match m s with
  | (Returns a, s') => (Returns (inr a), s')
  | (Raises e, s') => (Returns (inl e), s')
  | (Blocks, s') => (Blocks, s')
  end.

(** The [while True] loop, along the deliveries that are still to come.
    [entering] tells whether the iteration starts here (then
    [start_consuming] is called) or a call of [start_consuming] is under
    way.  When nothing is left to come the consumer waits. *)
Fixpoint consuming_loop (inbox : list delivery) (entering : bool) : M unit :=
  ((if entering then emit StartConsuming else mret tt) ;;
   match inbox with
   | [] => blocks
   | d :: rest =>
       r <- attempt (consume d) ;;
       match r with
       | inr true => consuming_loop rest false
       | inr false => consuming_loop rest true
       | inl e => on_consuming_error e ;; consuming_loop rest true
       end
   end)%M.


(** ** Notions used in the statements *)

(** An expression raises nothing but instances of [Exception]. *)
Definition raises_Exception {A} (x : exn + A) : Prop :=
  forall e, x = inl e -> is_Exception e = true.

(** The log records of the [try] statement: one per alert appended, and
    the two of the [except] clause when the block raised. *)
Definition attempt_log (data_received : json) : list event :=
  let '(data_for_alerting, raised) := classify data_received in
  ((fun alert => Log DEBUG (Classified alert)) <$> data_for_alerting) ++
  match raised with
  | None => []
  | Some e => [Log ERROR (ErrorProcessing data_received);
               Log ERROR (ExceptionInfo e)]
  end.

(** The log records among the events. *)
Definition is_log (ev : event) : bool :=
  match ev with
  | Log _ _ => true
  | _ => false
  end.

(** The [N] newest items of a sequence. *)
Definition keep_newest (N : Z) (q : list entry) : list entry :=
  drop (length q - Z.to_nat N) q.

(** What [_send_data] records when it publishes an entry and removes it. *)
Definition sent (item : entry) : list event :=
  [Rabbit (basic_publish_confirm item); QueueGet item].

(** The [put]s on the publishing queue among the events. *)
Definition is_put (ev : event) : bool :=
  match ev with
  | QueuePut _ => true
  | _ => false
  end.

(** The trace only grows. *)
Definition appends {A} (m : M A) : Prop :=
  forall s, exists evs, trace (m s).2 = trace s ++ evs.

(** What an iteration records when it begins. *)
Definition enter (entering : bool) (s : alerter) : alerter :=
  if entering then record_event StartConsuming s else s.

(** What [_initialize_alerter] does when the broker accepts every call,
    given the prefetch count. *)
Definition initialization (prefetch_count : Z) : list event :=
  [Rabbit connect_till_successful;
   Log INFO (Text "Creating 'alert' exchange");
   Rabbit (exchange_declare ALERT_EXCHANGE "topic" false true false false);
   Log INFO (Text "Creating queue 'github_alerter_queue'");
   Rabbit (queue_declare "github_alerter_queue" false true false false);
   Log INFO (Text "Binding queue 'github_alerter_queue' to exchange 'alerter' with routing key 'alerter.github'");
   Rabbit (queue_bind "github_alerter_queue" ALERT_EXCHANGE "alerter.github");
   Rabbit (basic_qos prefetch_count);
   Log INFO (Text "Setting delivery confirmation on RabbitMQ channel");
   Rabbit confirm_delivery;
   Log INFO (Text "Declaring consuming intentions");
   Rabbit (basic_consume "github_alerter_queue" false false)].

(** The items that the events remove from the publishing queue, in order. *)
Definition gets_of (evs : list event) : list entry :=
  omap (fun ev => match ev with QueueGet item => Some item | _ => None end) evs.

(** The items that the events put on the publishing queue, in order. *)
Definition puts_of (evs : list event) : list entry :=
  omap (fun ev => match ev with QueuePut item => Some item | _ => None end) evs.

(** A publishing queue with a [maxsize] holds no more than it. *)
Definition within_maxsize (s : alerter) : Prop :=
  0 < maxsize s -> Z.of_nat (length (publishing_queue s)) <= maxsize s.

(** An int, or a bool, which is one. *)
Definition is_int (v : json) : bool :=
  match v with
  | JInt _ | JBool _ => true
  | _ => false
  end.

(** A payload has a key when it is an object that binds it. *)
Definition has_key (k : string) (v : json) : bool :=
  match v with
  | JObj m => match m !! k with Some _ => true | None => false end
  | _ => false
  end.


(** * Properties *)

(** ** Classification *)

(** The loop visits the indices in order and appends one alert for each. *)
Lemma release_alerts_all (meta data : json) (alert_at : Z -> alert_data)
    (indices : list Z) (acc : list alert_data) :
  (forall i, i ∈ indices -> release_alert meta data i = inr (alert_at i)) ->
  release_alerts meta data indices acc = (acc ++ (alert_at <$> indices), None).
Proof.
  revert acc. induction indices as [|i rest IH]; intros acc Hall; simpl.
  - by rewrite app_nil_r.
  - rewrite Hall; [|by left].
    rewrite IH; [|intros j Hj; apply Hall; by right].
    by rewrite <- app_assoc.
Qed.

Lemma release_alerts_release (meta data : json) (indices : list Z)
    (acc : list alert_data) :
  Forall (fun a => is_release_alert a = true) acc ->
  Forall (fun a => is_release_alert a = true)
    (release_alerts meta data indices acc).1.
Proof.
  revert acc. induction indices as [|i rest IH]; intros acc Hacc; simpl; [done|].
  destruct (release_alert meta data i) as [e|alert] eqn:Halert; [done|].
  apply IH, Forall_app. split; [done|]. constructor; [|done].
  unfold release_alert, ebind in Halert.
  repeat match type of Halert with
         | match ?x with _ => _ end = _ => destruct x; [done|]
         end.
  by inversion Halert.
Qed.

Lemma elem_of_range0 (n i : Z) : i ∈ range0 n <-> 0 <= i < n.
Proof.
  unfold range0. rewrite list_elem_of_fmap. split.
  - intros (k & -> & Hk). apply elem_of_seq in Hk. lia.
  - intros Hi. exists (Z.to_nat i). split; [lia|]. apply elem_of_seq. lia.
Qed.

Lemma length_range0 (n : Z) : length (range0 n) = Z.to_nat n.
Proof. unfold range0. by rewrite length_fmap, length_seq. Qed.

(** The ['result'] branch reads nothing of the payload but
    [data_received['result']]. *)
Lemma classify_result_ext (d d' : json) :
  d.["result"] = d'.["result"] -> classify_result d = classify_result d'.
Proof. intros H. unfold classify_result, result_header. by rewrite H. Qed.

Lemma classify_result_release (d : json) :
  Forall (fun a => is_release_alert a = true) (classify_result d).1.
Proof.
  unfold classify_result.
  destruct (result_header d) as [e|[[meta data] indices]]; [by constructor|].
  by apply release_alerts_release.
Qed.

(** *** What the [try] block can raise *)

Lemma raises_Exception_inr {A} (a : A) : raises_Exception (inr a : exn + A).
Proof. by intros e. Qed.

Lemma raises_Exception_bind {A B} (x : exn + A) (f : A -> exn + B) :
  raises_Exception x -> (forall a, raises_Exception (f a)) ->
  raises_Exception (ebind x f).
Proof.
  intros Hx Hf e. destruct x as [e'|a]; simpl; intros H.
  - injection H as <-. by apply (Hx e').
  - exact (Hf a e H).
Qed.

Lemma raises_Exception_getitem (v : json) (k : string) :
  raises_Exception v.[k].
Proof.
  intros e. destruct v; simpl; try by intros [= <-].
  destruct (m !! k); by intros [= <-].
Qed.

Lemma raises_Exception_float_of_int (z : Z) : raises_Exception (float_of_int z).
Proof.
  intros e. unfold float_of_int.
  destruct (binary_normalize 53 1024 z 0 false); by intros [= <-].
Qed.

Lemma raises_Exception_int (v : json) : raises_Exception (py_int v).
Proof.
  intros e. destruct v as [| | |f|s| |]; simpl; try by intros [= <-].
  - destruct f; simpl; by intros [= <-].
  - destruct (int_of_str s); by intros [= <-].
Qed.

Lemma raises_Exception_sub (a b : json) : raises_Exception (py_sub a b).
Proof.
  unfold py_sub.
  destruct (as_number a) as [[x|f]|], (as_number b) as [[y|g]|];
    try (by intros e [= <-]);
    apply raises_Exception_bind;
    auto using raises_Exception_float_of_int, raises_Exception_inr.
Qed.

Lemma raises_Exception_range0 (n : json) : raises_Exception (py_range0 n).
Proof. intros e. destruct n; simpl; by intros [= <-]. Qed.

Lemma raises_Exception_in (k : string) (v : json) : raises_Exception (py_in k v).
Proof. intros e. destruct v; simpl; by intros [= <-]. Qed.

Create HintDb raises.

Local Hint Resolve raises_Exception_inr raises_Exception_getitem
  raises_Exception_int raises_Exception_sub raises_Exception_range0
  raises_Exception_in : raises.

Ltac raises_Exception_steps :=
  repeat first
    [ apply raises_Exception_bind; [solve [auto with raises]|intros ?]
    | solve [auto with raises] ].

Lemma raises_Exception_release_alert (meta data : json) (i : Z) :
  raises_Exception (release_alert meta data i).
Proof. unfold release_alert. raises_Exception_steps. Qed.

Lemma raises_Exception_cannot_access (d : json) :
  raises_Exception (cannot_access_alert d).
Proof. unfold cannot_access_alert. raises_Exception_steps. Qed.

Lemma raises_Exception_header (d : json) : raises_Exception (result_header d).
Proof.
  unfold result_header. raises_Exception_steps.
  match goal with |- raises_Exception (match ?p with _ => _ end) => destruct p end;
    raises_Exception_steps;
    match goal with |- raises_Exception (if ?b then _ else _) => destruct b end;
    raises_Exception_steps.
Qed.

Lemma release_alerts_raises (meta data : json) (indices : list Z)
    (acc partial : list alert_data) (e : exn) :
  release_alerts meta data indices acc = (partial, Some e) ->
  is_Exception e = true.
Proof.
  revert acc. induction indices as [|i rest IH]; intros acc; simpl; [done|].
  destruct (release_alert meta data i) as [e'|alert] eqn:Halert; [|apply IH].
  intros [= _ <-]. by apply (raises_Exception_release_alert meta data i).
Qed.

(** Whatever leaves the [try] block is caught by [except Exception]. *)
Lemma classify_raises_Exception (d : json) (partial : list alert_data) (e : exn) :
  classify d = (partial, Some e) -> is_Exception e = true.
Proof.
  unfold classify.
  destruct (py_in "result" d) as [e1|[|]] eqn:Hin1.
  - intros [= _ <-]. by apply (raises_Exception_in "result" d).
  - unfold classify_result.
    destruct (result_header d) as [e1|[[meta data] indices]] eqn:Hh.
    + intros [= _ <-]. by apply (raises_Exception_header d).
    + apply release_alerts_raises.
  - destruct (py_in "error" d) as [e1|[|]] eqn:Hin2.
    + intros [= _ <-]. by apply (raises_Exception_in "error" d).
    + unfold classify_error.
      destruct (cannot_access_alert d) as [e1|alert] eqn:Hc; [|done].
      intros [= _ <-]. by apply (raises_Exception_cannot_access d).
    + by intros [= _ <-].
Qed.

(** *** The claims on classification *)


(** C7.  A payload with an ['error'] key and without a ['result'] key,
    whose [meta_data] has the fields [repo_name], [time], [repo_parent_id]
    and [repo_id], yields exactly one alert: the [CannotAccessGitHubPageAlert]
    built from these fields. *)
Theorem classify_error_one_alert (m : gmap string json)
    (error meta_data repo_name time repo_parent_id repo_id : json) :
  m !! "result" = None ->
  m !! "error" = Some error ->
  error.["meta_data"] = inr meta_data ->
  meta_data.["repo_name"] = inr repo_name ->
  meta_data.["time"] = inr time ->
  meta_data.["repo_parent_id"] = inr repo_parent_id ->
  meta_data.["repo_id"] = inr repo_id ->
  classify (JObj m) =
    ([CannotAccessGitHubPageAlert repo_name "ERROR" time repo_parent_id repo_id],
     None).
Proof.
  intros Hresult Herror Hmeta Hname Htime Hparent Hid.
  unfold classify; simpl. rewrite Hresult, Herror.
  unfold classify_error, cannot_access_alert; simpl. rewrite Herror; simpl.
  rewrite Hmeta; simpl. by rewrite Hname, Htime, Hparent, Hid.
Qed.

(** The ['result'] branch on a payload that has all the fields it reads,
    with two int counters and [current > previous]: one release alert per
    index, in order. *)
Lemma classify_result_well_formed
    (d result meta data counters releases : json) (c p : Z)
    (release release_name tag_name : Z -> json)
    (repo_name last_monitored repo_parent_id repo_id : json) :
  d.["result"] = inr result ->
  result.["meta_data"] = inr meta ->
  result.["data"] = inr data ->
  data.["no_of_releases"] = inr counters ->
  counters.["current"] = inr (JInt c) ->
  counters.["previous"] = inr (JInt p) ->
  p < c ->
  meta.["repo_name"] = inr repo_name ->
  meta.["last_monitored"] = inr last_monitored ->
  meta.["repo_parent_id"] = inr repo_parent_id ->
  meta.["repo_id"] = inr repo_id ->
  data.["releases"] = inr releases ->
  (forall i, 0 <= i < c - p ->
     releases.[py_str i] = inr (release i) /\
     (release i).["release_name"] = inr (release_name i) /\
     (release i).["tag_name"] = inr (tag_name i)) ->
  classify_result d =
    ((fun i => NewGitHubReleaseAlert repo_name (release_name i) (tag_name i)
                 "INFO" last_monitored repo_parent_id repo_id)
       <$> range0 (c - p), None).
Proof.
  intros Hresult Hmeta Hdata Hcounters Hcurrent Hprevious Hlt
    Hname Hlast Hparent Hid Hreleases Hall.
  unfold classify_result, result_header. rewrite Hresult. cbn [ebind].
  rewrite Hmeta, Hdata. cbn [ebind]. rewrite Hcounters. cbn [ebind].
  rewrite Hcurrent, Hprevious. cbn [ebind py_int].
  destruct (Z.ltb_spec p c) as [_|Hle]; [|lia].
  cbn [py_sub as_number ebind py_range0].
  set (alert_at := fun i => NewGitHubReleaseAlert _ _ _ _ _ _ _).
  rewrite (release_alerts_all meta data alert_at); [done|].
  intros i Hi. apply elem_of_range0 in Hi.
  destruct (Hall i Hi) as (Hrel & Hrn & Htn).
  unfold release_alert. rewrite Hname, Hreleases. cbn [ebind].
  rewrite Hrel. cbn [ebind]. rewrite Hrn, Htn. cbn [ebind].
  by rewrite Hlast, Hparent, Hid.
Qed.

(** C9.  A payload with both a ['result'] and an ['error'] key is
    classified by the ['result'] branch, and by it alone: the outcome is
    what the ['result'] branch yields on the payload, so that a payload
    whose ['result'] has all the fields the branch reads, with two int
    counters and [current > previous], yields its [current - previous]
    release alerts; the outcome is also the one of the payload without its
    ['error'] key, it does not change with the content of ['error'], and no
    alert in it is a [CannotAccessGitHubPageAlert]. *)
Theorem classify_result_before_error (m : gmap string json) (result error : json) :
  m !! "result" = Some result ->
  m !! "error" = Some error ->
  classify (JObj m) = classify_result (JObj m) /\
  (forall (meta data counters releases : json) (c p : Z)
          (release release_name tag_name : Z -> json)
          (repo_name last_monitored repo_parent_id repo_id : json),
     result.["meta_data"] = inr meta ->
     result.["data"] = inr data ->
     data.["no_of_releases"] = inr counters ->
     counters.["current"] = inr (JInt c) ->
     counters.["previous"] = inr (JInt p) ->
     p < c ->
     meta.["repo_name"] = inr repo_name ->
     meta.["last_monitored"] = inr last_monitored ->
     meta.["repo_parent_id"] = inr repo_parent_id ->
     meta.["repo_id"] = inr repo_id ->
     data.["releases"] = inr releases ->
     (forall i, 0 <= i < c - p ->
        releases.[py_str i] = inr (release i) /\
        (release i).["release_name"] = inr (release_name i) /\
        (release i).["tag_name"] = inr (tag_name i)) ->
     classify (JObj m) =
       ((fun i => NewGitHubReleaseAlert repo_name (release_name i) (tag_name i)
                    "INFO" last_monitored repo_parent_id repo_id)
          <$> range0 (c - p), None)) /\
  classify (JObj m) = classify (JObj (delete "error" m)) /\
  (forall error', classify (JObj (<["error" := error']> m)) = classify (JObj m)) /\
  Forall (fun a => is_release_alert a = true) (classify (JObj m)).1.
Proof.
  intros Hresult Herror.
  assert (Hbranch : forall m' : gmap string json,
    m' !! "result" = Some result ->
    classify (JObj m') = classify_result (JObj m)).
  { intros m' H'. unfold classify; simpl. rewrite H'.
    apply classify_result_ext; simpl. by rewrite H', Hresult. }
  split; [by apply Hbranch|]. split; [|split; [|split]].
  - intros meta data counters releases c p release release_name tag_name
      repo_name last_monitored repo_parent_id repo_id
      Hmeta Hdata Hcounters Hcurrent Hprevious Hlt
      Hname Hlast Hparent Hid Hreleases Hall.
    rewrite (Hbranch m Hresult).
    apply (classify_result_well_formed (JObj m) result meta data counters
             releases c p release); try done.
    simpl. by rewrite Hresult.
  - rewrite !Hbranch; [done| |done]. by rewrite lookup_delete_ne.
  - intros error'. rewrite !Hbranch; [done|done|]. by rewrite lookup_insert_ne.
  - rewrite Hbranch; [|done]. apply classify_result_release.
Qed.

(** A payload in which neither ['result'] nor ['error'] is found makes the
    [try] block raise [ReceivedUnexpectedDataException], with nothing in
    [data_for_alerting]. *)
Lemma classify_unexpected (d : json) :
  py_in "result" d = inr false -> py_in "error" d = inr false ->
  classify d = ([], Some ReceivedUnexpectedDataException).
Proof. intros H1 H2. unfold classify. by rewrite H1, H2. Qed.


(** ** The record of what the alerter did *)

Lemma record_events_nil (s : alerter) : record_events [] s = s.
Proof. unfold record_events. by rewrite app_nil_r. Qed.

Lemma record_events_app (evs evs' : list event) (s : alerter) :
  record_events evs' (record_events evs s) = record_events (evs ++ evs') s.
Proof. unfold record_events; simpl. by rewrite app_assoc. Qed.

Lemma record_event_events (ev : event) (evs : list event) (s : alerter) :
  record_events evs (record_event ev s) = record_events (ev :: evs) s.
Proof. unfold record_event. by rewrite record_events_app. Qed.

Lemma for_each_logger {A} (level : log_level) (f : A -> log_record)
    (l : list A) (s : alerter) :
  for_each (fun a => logger level (f a)) l s =
    (Returns tt, record_events ((fun a => Log level (f a)) <$> l) s).
Proof.
  revert s. induction l as [|a l IH]; intros s; simpl.
  - by rewrite record_events_nil.
  - unfold mbind, logger, emit; simpl. by rewrite IH, record_event_events.
Qed.

Lemma attempt_log_is_log (d : json) : Forall (fun ev => is_log ev = true) (attempt_log d).
Proof.
  unfold attempt_log. destruct (classify d) as [l raised].
  apply Forall_app. split.
  - by apply Forall_fmap, Forall_true.
  - destruct raised; repeat constructor.
Qed.

(** The [try] statement always completes: it logs, and leaves
    [data_for_alerting] and [processing_error]. *)
Lemma classification_attempt_spec (d : json) (s : alerter) :
  classification_attempt d s =
    (Returns ((classify d).1, bool_decide ((classify d).2 <> None)),
     record_events (attempt_log d) s).
Proof.
  unfold classification_attempt, attempt_log.
  destruct (classify d) as [l [e|]] eqn:Hc; simpl.
  - unfold mbind. rewrite for_each_logger.
    rewrite (classify_raises_Exception d l e Hc).
    unfold logger_exception, logger, emit, mret; simpl.
    unfold record_event. by rewrite !record_events_app.
  - unfold mbind. rewrite for_each_logger. unfold mret.
    by rewrite app_nil_r.
Qed.

(** ** The publishing queue *)

Lemma keep_newest_length (N : Z) (q : list entry) :
  0 <= N -> Z.of_nat (length (keep_newest N q)) <= N.
Proof. intros HN. unfold keep_newest. rewrite length_drop. lia. Qed.

Lemma keep_newest_fits (N : Z) (q : list entry) :
  Z.of_nat (length q) <= N -> keep_newest N q = q.
Proof.
  intros Hq. unfold keep_newest.
  replace (length q - Z.to_nat N)%nat with 0%nat by lia. done.
Qed.

Lemma keep_newest_cons (N : Z) (oldest : entry) (q : list entry) :
  N <= Z.of_nat (length q) ->
  keep_newest N (oldest :: q) = keep_newest N q.
Proof.
  intros Hq. unfold keep_newest; simpl.
  replace (S (length q) - Z.to_nat N)%nat with (S (length q - Z.to_nat N)) by lia.
  done.
Qed.

(** One round of the loop of [_place_latest_data_on_queue], on a queue that
    holds no more than its [maxsize]. *)
Lemma place_one (alert : alert_data) (rest : list alert_data) (s : alerter) :
  0 < maxsize s ->
  Z.of_nat (length (publishing_queue s)) <= maxsize s ->
  exists s1,
    _place_latest_data_on_queue (alert :: rest) s =
      _place_latest_data_on_queue rest s1 /\
    maxsize s1 = maxsize s /\
    broker s1 = broker s /\
    broker_calls s1 = broker_calls s /\
    publishing_queue s1 =
      (if is_full s then tail (publishing_queue s) else publishing_queue s)
      ++ [queue_entry alert] /\
    trace s1 = trace s ++
      [Log DEBUG (Adding alert)] ++
      (if is_full s then option_list (QueueGet <$> head (publishing_queue s))
       else []) ++
      [QueuePut (queue_entry alert); Log DEBUG (Added alert)] /\
    Z.of_nat (length (publishing_queue s1)) <= maxsize s.
Proof.
  intros HN Hlen. simpl.
  unfold mbind at 1, logger at 1, emit at 1.
  unfold mbind at 1, queue_full at 1.
  replace (is_full (record_event (Log DEBUG (Adding alert)) s)) with (is_full s)
    by done.
  destruct (is_full s) eqn:Hfull.
  - unfold is_full in Hfull. apply andb_prop in Hfull as [_ Hfull].
    apply Z.leb_le in Hfull.
    destruct (publishing_queue s) as [|oldest q] eqn:Hq; simpl in *; [lia|].
    unfold mbind at 1. unfold mbind at 1. unfold queue_get at 1; simpl.
    rewrite Hq. unfold mret at 1.
    unfold mbind at 1. unfold queue_put at 1.
    assert (Hnot : is_full (record_event (QueueGet oldest)
              (set_queue q (record_event (Log DEBUG (Adding alert)) s))) = false).
    { unfold is_full; simpl. apply andb_false_iff. right. apply Z.leb_gt. lia. }
    rewrite Hnot. unfold mbind at 1, logger at 1, emit at 1.
    eexists. split; [reflexivity|]. simpl.
    repeat split; try done.
    + by rewrite <- !app_assoc.
    + rewrite length_app; simpl. lia.
  - unfold mbind at 1. unfold mret at 1.
    unfold mbind at 1. unfold queue_put at 1.
    replace (is_full (record_event (Log DEBUG (Adding alert)) s)) with (is_full s)
      by done.
    rewrite Hfull. unfold mbind at 1, logger at 1, emit at 1.
    eexists. split; [reflexivity|]. simpl.
    repeat split; try done.
    + by rewrite <- !app_assoc.
    + rewrite length_app; simpl.
      unfold is_full in Hfull. apply andb_false_iff in Hfull as [H|H].
      * apply Z.ltb_ge in H. lia.
      * apply Z.leb_gt in H. lia.
Qed.

(** Putting a list of alerts never blocks and leaves the newest [maxsize]
    items, in their order. *)
Lemma place_latest_spec (data_list : list alert_data) (s : alerter) :
  0 < maxsize s ->
  Z.of_nat (length (publishing_queue s)) <= maxsize s ->
  exists s',
    _place_latest_data_on_queue data_list s = (Returns tt, s') /\
    maxsize s' = maxsize s /\
    broker s' = broker s /\
    broker_calls s' = broker_calls s /\
    publishing_queue s' =
      keep_newest (maxsize s) (publishing_queue s ++ (queue_entry <$> data_list)).
Proof.
  revert s. induction data_list as [|alert rest IH]; intros s HN Hlen.
  - exists s. simpl. rewrite app_nil_r, keep_newest_fits; done.
  - destruct (place_one alert rest s HN Hlen)
      as (s1 & Hstep & Hmax & Hbroker & Hcalls & Hq & _ & Hlen1).
    destruct (IH s1) as (s' & Hrun & Hmax' & Hbroker' & Hcalls' & Hq');
      [lia|lia|].
    exists s'. rewrite Hstep, Hrun. repeat split; try congruence.
    rewrite Hq', Hq, Hmax. rewrite <- app_assoc; simpl.
    destruct (is_full s) eqn:Hfull; [|done].
    unfold is_full in Hfull. apply andb_prop in Hfull as [_ Hfull].
    apply Z.leb_le in Hfull.
    destruct (publishing_queue s) as [|oldest q]; simpl in *; [lia|].
    rewrite keep_newest_cons; [done|]. rewrite length_app; simpl. lia.
Qed.

(** C4.  On a queue of capacity [N] (its [maxsize], positive) that holds no
    more than [N] items, [_place_latest_data_on_queue] returns for every
    list of alerts (no [put] or [get] waits); the queue then holds the [N]
    newest of the items it held and the new ones, in their order, so its
    length does not exceed [N]; putting one alert in a queue that holds [N]
    items removes the oldest item, and only it, before the new one is
    appended; and putting [N + 1] alerts in an empty queue leaves the [N]
    last of them, the first one gone. *)
Theorem place_latest_drops_oldest (data_list : list alert_data) (s : alerter) :
  0 < maxsize s ->
  Z.of_nat (length (publishing_queue s)) <= maxsize s ->
  exists s',
    _place_latest_data_on_queue data_list s = (Returns tt, s') /\
    maxsize s' = maxsize s /\
    publishing_queue s' =
      keep_newest (maxsize s) (publishing_queue s ++ (queue_entry <$> data_list)) /\
    Z.of_nat (length (publishing_queue s')) <= maxsize s /\
    (forall alert oldest rest,
       data_list = [alert] ->
       publishing_queue s = oldest :: rest ->
       Z.of_nat (length (publishing_queue s)) = maxsize s ->
       publishing_queue s' = rest ++ [queue_entry alert] /\
       trace s' = trace s ++ [Log DEBUG (Adding alert); QueueGet oldest;
                              QueuePut (queue_entry alert);
                              Log DEBUG (Added alert)]) /\
    (publishing_queue s = [] ->
     Z.of_nat (length data_list) = maxsize s + 1 ->
     publishing_queue s' = tail (queue_entry <$> data_list) /\
     Z.of_nat (length (publishing_queue s')) = maxsize s).
Proof.
  intros HN Hlen.
  destruct (place_latest_spec data_list s HN Hlen)
    as (s' & Hrun & Hmax & _ & _ & Hq).
  exists s'. split; [done|]. split; [done|]. split; [done|].
  split; [|split].
  - rewrite Hq. apply keep_newest_length. lia.
  - intros alert oldest rest -> Hold Hfull.
    destruct (place_one alert [] s HN Hlen)
      as (s1 & Hstep & _ & _ & _ & Hq1 & Htrace & _).
    rewrite Hrun in Hstep. simpl in Hstep. unfold mret in Hstep.
    injection Hstep as <-.
    assert (Hf : is_full s = true).
    { unfold is_full. apply andb_true_iff. split.
      - by apply Z.ltb_lt.
      - apply Z.leb_le. lia. }
    rewrite Hf, Hold in Hq1, Htrace. simpl in Hq1, Htrace. done.
  - intros Hempty Hcount. rewrite Hq, Hempty; simpl.
    destruct data_list as [|first others]; cbn [length] in Hcount; [lia|].
    rewrite fmap_cons. cbn [tail].
    assert (Hothers : Z.of_nat (length (queue_entry <$> others)) = maxsize s).
    { rewrite length_fmap. lia. }
    rewrite keep_newest_cons, keep_newest_fits; [done|lia|lia].
Qed.


(** ** Draining the queue *)

(** What a call of [_send_data] does: a front part of the queue is
    delivered and removed, entry by entry and in order; the call returns
    when nothing remains, and raises what the broker raised on the first
    entry that remains otherwise. *)
Lemma send_all_spec (pending : list entry) (s : alerter) :
  publishing_queue s = pending ->
  exists (delivered remaining : list entry) (r : outcome unit) (s' : alerter),
    send_all pending s = (r, s') /\
    pending = delivered ++ remaining /\
    publishing_queue s' = remaining /\
    maxsize s' = maxsize s /\
    broker s' = broker s /\
    trace s' = trace s ++ flat_map sent delivered ++
      match r with
      | Raises _ =>
          option_list ((fun item => Rabbit (basic_publish_confirm item))
                         <$> head remaining)
      | _ => []
      end /\
    (delivered <> [] -> broker s (broker_calls s) = None) /\
    match r with
    | Returns _ => remaining = []
    | Raises e =>
        remaining <> [] /\
        broker s (broker_calls s + length delivered)%nat = Some e
    | Blocks => False
    end.
Proof.
  revert s. induction pending as [|item rest IH]; intros s Hq.
  - exists [], [], (Returns tt), s. simpl. rewrite app_nil_r. done.
  - simpl. unfold mbind at 1. unfold rabbitmq at 1.
    destruct (broker s (broker_calls s)) as [e|] eqn:Hbroker.
    + eexists [], (item :: rest), (Raises e), _.
      split; [reflexivity|]. simpl. rewrite Nat.add_0_r. done.
    + unfold mbind at 1. unfold queue_get at 1. simpl. rewrite Hq.
      set (s2 := record_event (QueueGet item) _).
      destruct (IH s2 eq_refl)
        as (delivered & remaining & r & s' & Hrun & Hsplit & Hq' & Hmax
            & Hbr & Htrace & _ & Hr).
      exists (item :: delivered), remaining, r, s'.
      split; [done|]. split; [by rewrite Hsplit|].
      split; [done|]. split; [done|]. split; [done|].
      split; [|split; [done|]].
      * rewrite Htrace. simpl. by rewrite <- !app_assoc.
      * destruct r as [[]|e|]; [done| |done].
        destruct Hr as [Hne He]. split; [done|].
        rewrite <- He. simpl. f_equal. lia.
Qed.

Lemma send_data_spec (s : alerter) :
  exists (delivered remaining : list entry) (r : outcome unit) (s' : alerter),
    _send_data s = (r, s') /\
    publishing_queue s = delivered ++ remaining /\
    publishing_queue s' = remaining /\
    maxsize s' = maxsize s /\
    broker s' = broker s /\
    trace s' = trace s ++ flat_map sent delivered ++
      match r with
      | Raises _ =>
          option_list ((fun item => Rabbit (basic_publish_confirm item))
                         <$> head remaining)
      | _ => []
      end /\
    (delivered <> [] -> broker s (broker_calls s) = None) /\
    match r with
    | Returns _ => remaining = []
    | Raises e =>
        remaining <> [] /\
        broker s (broker_calls s + length delivered)%nat = Some e
    | Blocks => False
    end.
Proof. unfold _send_data. by apply send_all_spec. Qed.


Lemma sent_no_put (delivered : list entry) :
  Forall (fun ev => is_put ev = false) (flat_map sent delivered).
Proof.
  induction delivered as [|item rest IH]; simpl; [done|].
  by repeat constructor.
Qed.

(** ** The message handler *)

(** After a payload is decoded, the handler logs the attempt at
    classification and goes on with the acknowledgement. *)
Lemma classify_ack_enqueue_decoded (delivery_tag : Z) (d : json) (s : alerter) :
  classify_ack_enqueue delivery_tag (Encodes d) s =
    (rabbitmq (basic_ack delivery_tag false) ;;
     if bool_decide ((classify d).2 <> None) then mret tt
     else _place_latest_data_on_queue (classify d).1)%M
      (record_events (Log INFO (Processing d) :: attempt_log d) s).
Proof.
  unfold classify_ack_enqueue, lift, json_loads.
  unfold mbind at 1. unfold mret at 1.
  unfold mbind at 1, logger at 1, emit at 1.
  unfold mbind at 1. rewrite classification_attempt_spec.
  by rewrite record_event_events.
Qed.

Lemma appends_mret {A} (a : A) : appends (mret a).
Proof. intros s. exists []. simpl. by rewrite app_nil_r. Qed.

Lemma appends_raise {A} (e : exn) : appends (raise e : M A).
Proof. intros s. exists []. simpl. by rewrite app_nil_r. Qed.

Lemma appends_bind {A B} (m : M A) (f : A -> M B) :
  appends m -> (forall a, appends (f a)) -> appends (mbind m f).
Proof.
  intros Hm Hf s. unfold mbind. destruct (Hm s) as [evs Hevs].
  destruct (m s) as [[a|e|] s1]; simpl in *; eauto.
  destruct (Hf a s1) as [evs' Hevs']. exists (evs ++ evs').
  by rewrite Hevs', Hevs, app_assoc.
Qed.

Lemma appends_emit (ev : event) : appends (emit ev).
Proof. intros s. by exists [ev]. Qed.

Lemma appends_rabbitmq (call : rabbit_call) : appends (rabbitmq call).
Proof.
  intros s. exists [Rabbit call]. unfold rabbitmq.
  by destruct (broker s (broker_calls s)).
Qed.

Lemma appends_queue_get : appends queue_get.
Proof.
  intros s. unfold queue_get.
  destruct (publishing_queue s) as [|item rest]; simpl.
  - exists []. by rewrite app_nil_r.
  - by exists [QueueGet item].
Qed.

Lemma appends_queue_put (item : entry) : appends (queue_put item).
Proof.
  intros s. unfold queue_put. destruct (is_full s); simpl.
  - exists []. by rewrite app_nil_r.
  - by exists [QueuePut item].
Qed.

Lemma appends_try_except {A} (body : M A) (handler : exn -> option (M A)) :
  appends body ->
  (forall e suite, handler e = Some suite -> appends suite) ->
  appends (try_except body handler).
Proof.
  intros Hbody Hhandler s. unfold try_except.
  destruct (Hbody s) as [evs Hevs].
  destruct (body s) as [[a|e|] s1]; simpl in *; eauto.
  destruct (handler e) as [suite|] eqn:Hsuite; simpl; eauto.
  destruct (Hhandler e suite Hsuite s1) as [evs' Hevs'].
  exists (evs ++ evs'). by rewrite Hevs', Hevs, app_assoc.
Qed.

Lemma appends_place_latest (data_list : list alert_data) :
  appends (_place_latest_data_on_queue data_list).
Proof.
  induction data_list as [|alert rest IH]; simpl; [apply appends_mret|].
  repeat (apply appends_bind; [|intros ?]);
    try apply appends_emit; try apply appends_queue_put; try done.
  - intros s. exists []. simpl. by rewrite app_nil_r.
  - match goal with |- appends (if ?b then _ else _) => destruct b end;
      [|apply appends_mret].
    apply appends_bind; [apply appends_queue_get|intros ?; apply appends_mret].
Qed.

Lemma appends_send_data : appends _send_data.
Proof.
  intros s. destruct (send_data_spec s)
    as (delivered & remaining & r & s' & Hrun & _ & _ & _ & _ & Htrace & _).
  rewrite Hrun. simpl. eauto.
Qed.

Lemma appends_drain : appends (try_except _send_data on_send_error).
Proof.
  apply appends_try_except; [apply appends_send_data|].
  intros e suite. destruct e; simpl; try done.
  intros [= <-]. apply appends_emit.
Qed.

(** C2 (as amended).  For every message whose body decodes, the handler
    first logs the payload and the attempt at classification (whether it
    succeeded or raised), which are log records only; the next thing it
    does is [basic_ack]; whatever is put on the publishing queue or
    published comes after.  A message whose body cannot be decoded is not
    acknowledged: [json.loads] raises before the [try] statement and the
    exception leaves the handler at once, with nothing done. *)
Theorem ack_after_attempt_before_enqueue
    (delivery_tag : Z) (body : message_body) (s : alerter) :
  match body with
  | Undecodable =>
      _process_data delivery_tag body s = (Raises JSONDecodeError, s)
  | Encodes data_received =>
      Forall (fun ev => is_log ev = true) (attempt_log data_received) /\
      exists rest,
        trace (_process_data delivery_tag body s).2 =
          trace s ++
          (Log INFO (Processing data_received) :: attempt_log data_received) ++
          Rabbit (basic_ack delivery_tag false) :: rest
  end.
Proof.
  destruct body as [|d]; [done|].
  split; [apply attempt_log_is_log|].
  unfold _process_data.
  set (s1 := record_events (Log INFO (Processing d) :: attempt_log d) s).
  unfold mbind at 1. rewrite classify_ack_enqueue_decoded. fold s1.
  unfold mbind at 1. unfold rabbitmq at 1.
  destruct (broker s1 (broker_calls s1)) as [e|].
  - exists []. simpl. by rewrite <- app_assoc.
  - set (s2 := count_call _).
    set (k := (if bool_decide _ then _ else _) : M unit).
    destruct (appends_bind k (fun _ => try_except _send_data on_send_error)) with (s := s2)
      as [evs Hevs].
    { subst k. destruct (bool_decide _); [apply appends_mret|apply appends_place_latest]. }
    { intros _. apply appends_drain. }
    unfold mbind in Hevs. exists evs.
    destruct (k s2) as [[[]|e|] s3]; simpl in *; rewrite Hevs;
      by rewrite <- !app_assoc.
Qed.


(** The acknowledgement followed by the drain step, on any alerter: an
    entry leaves the queue only from the front, and nothing is put. *)
Lemma ack_then_drain (delivery_tag : Z) (s s' : alerter) (r : outcome unit) :
  (rabbitmq (basic_ack delivery_tag false) ;;
   try_except _send_data on_send_error)%M s = (r, s') ->
  exists (evs : list event) (delivered : list entry),
    trace s' = trace s ++ Rabbit (basic_ack delivery_tag false) :: evs /\
    Forall (fun ev => is_put ev = false) evs /\
    publishing_queue s = delivered ++ publishing_queue s'.
Proof.
  unfold mbind, rabbitmq.
  destruct (broker s (broker_calls s)) as [e|].
  - intros [= <- <-]. by exists [], [].
  - set (s1 := count_call _). unfold try_except.
    destruct (send_data_spec s1)
      as (delivered & remaining & r2 & s2 & Hrun & Hsplit & Hq & _ & _ & Htrace & _).
    rewrite Hrun.
    assert (Hput : Forall (fun ev => is_put ev = false)
      (flat_map sent delivered ++
       match r2 with
       | Raises _ => option_list ((fun item => Rabbit (basic_publish_confirm item))
                                    <$> head remaining)
       | _ => []
       end)).
    { apply Forall_app. split; [apply sent_no_put|].
      destruct r2; try done. destruct remaining; by repeat constructor. }
    assert (Hkeep : trace s2 = trace s ++ Rabbit (basic_ack delivery_tag false) ::
      (flat_map sent delivered ++
       match r2 with
       | Raises _ => option_list ((fun item => Rabbit (basic_publish_confirm item))
                                    <$> head remaining)
       | _ => []
       end)).
    { rewrite Htrace. simpl. by rewrite <- app_assoc. }
    destruct r2 as [[]|e|].
    + intros [= <- <-]. eexists _, delivered. by rewrite Hq.
    + destruct (on_send_error e) as [suite|] eqn:Hsuite.
      * destruct e; try discriminate. injection Hsuite as <-.
        intros [= <- <-]. simpl. eexists (_ ++ [_]), delivered.
        rewrite Hkeep, Hq. split; [|split; [|done]].
        -- rewrite <- app_assoc. simpl. reflexivity.
        -- apply Forall_app. split; [done|by repeat constructor].
      * intros [= <- <-]. eexists _, delivered. by rewrite Hq.
    + intros [= <- <-]. eexists _, delivered. by rewrite Hq.
Qed.

(** When the [try] block raises, the handler logs, acknowledges and
    drains; it puts nothing. *)
Lemma process_data_on_error (delivery_tag : Z) (d : json)
    (partial : list alert_data) (e : exn) (s : alerter) :
  classify d = (partial, Some e) ->
  let s1 := record_events (Log INFO (Processing d) :: attempt_log d) s in
  classify_ack_enqueue delivery_tag (Encodes d) s =
    rabbitmq (basic_ack delivery_tag false) s1 /\
  _process_data delivery_tag (Encodes d) s =
    (rabbitmq (basic_ack delivery_tag false) ;;
     try_except _send_data on_send_error)%M s1.
Proof.
  intros Hc s1. unfold _process_data. unfold mbind at 1.
  rewrite classify_ack_enqueue_decoded. fold s1. rewrite Hc. simpl.
  unfold mbind, mret. by destruct (rabbitmq _ s1) as [[[]|e'|] s2].
Qed.

(** C3.  When classifying a payload raises, whatever alerts were built
    before: up to and including the enqueueing step the publishing queue is
    exactly what it was; and over the whole handler no entry is put on the
    queue, which can only lose, from its front, entries that the drain step
    delivered. *)
Theorem classification_error_places_nothing (delivery_tag : Z) (d : json)
    (partial : list alert_data) (e : exn) (s : alerter) :
  classify d = (partial, Some e) ->
  publishing_queue (classify_ack_enqueue delivery_tag (Encodes d) s).2 =
    publishing_queue s /\
  exists (evs : list event) (delivered : list entry),
    trace (_process_data delivery_tag (Encodes d) s).2 = trace s ++ evs /\
    Forall (fun ev => is_put ev = false) evs /\
    publishing_queue s =
      delivered ++ publishing_queue (_process_data delivery_tag (Encodes d) s).2.
Proof.
  intros Hc.
  destruct (process_data_on_error delivery_tag d partial e s Hc) as [Henq Hall].
  split.
  - rewrite Henq. unfold rabbitmq. by destruct (broker _ _).
  - rewrite Hall.
    set (s1 := record_events (Log INFO (Processing d) :: attempt_log d) s).
    destruct ((rabbitmq (basic_ack delivery_tag false) ;;
               try_except _send_data on_send_error)%M s1) as [r s'] eqn:Hrun.
    simpl.
    destruct (ack_then_drain delivery_tag s1 s' r Hrun)
      as (evs & delivered & Htrace & Hput & Hq).
    exists ((Log INFO (Processing d) :: attempt_log d) ++
            Rabbit (basic_ack delivery_tag false) :: evs), delivered.
    split; [|split; [|done]].
    + rewrite Htrace. simpl. by rewrite <- app_assoc.
    + apply Forall_app. split.
      * constructor; [done|]. eapply Forall_impl; [apply attempt_log_is_log|].
        by intros [].
      * by constructor.
Qed.

(** A payload that is no object, or an object with neither a ['result']
    nor an ['error'] key, makes the [try] block raise before any alert is
    built: [ReceivedUnexpectedDataException] from the [else] branch when
    both membership tests are false, [TypeError] otherwise (from the test
    itself on null, a number or a boolean; from the subscript on a str or
    a list in which the test finds the key). *)
Lemma classify_without_keys (d : json) :
  has_key "result" d = false ->
  has_key "error" d = false ->
  exists e : exn,
    classify d = ([], Some e) /\
    (e = ReceivedUnexpectedDataException \/ e = TypeError) /\
    (e = ReceivedUnexpectedDataException <->
       py_in "result" d = inr false /\ py_in "error" d = inr false) /\
    ((exists m, d = JObj m) -> e = ReceivedUnexpectedDataException).
Proof.
  intros Hresult Herror. unfold classify.
  destruct d as [|b|z|f|str|l|m]; simpl in Hresult, Herror.
  1-4: exists TypeError; simpl;
    (split; [done|]; split; [by right|]; split;
       [split; [done|by intros [? _]]|by intros [? ?]]).
  - cbn [py_in]. destruct (str_contains "result" str).
    { exists TypeError. split; [done|]. split; [by right|].
      split; [split; [done|by intros [? _]]|by intros [? ?]]. }
    destruct (str_contains "error" str).
    { exists TypeError. split; [done|]. split; [by right|].
      split; [split; [done|by intros [_ ?]]|by intros [? ?]]. }
    exists ReceivedUnexpectedDataException. split; [done|]. by split; [left|].
  - cbn [py_in].
    destruct (existsb (fun x => match x with
                                | JStr s => String.eqb "result" s
                                | _ => false
                                end) l).
    { exists TypeError. split; [done|]. split; [by right|].
      split; [split; [done|by intros [? _]]|by intros [? ?]]. }
    destruct (existsb (fun x => match x with
                                | JStr s => String.eqb "error" s
                                | _ => false
                                end) l).
    { exists TypeError. split; [done|]. split; [by right|].
      split; [split; [done|by intros [_ ?]]|by intros [? ?]]. }
    exists ReceivedUnexpectedDataException. split; [done|]. by split; [left|].
  - cbn [py_in]. destruct (m !! "result"); [done|].
    destruct (m !! "error"); [done|].
    exists ReceivedUnexpectedDataException. split; [done|]. by split; [left|].
Qed.

(** C6 (as amended).  A decoded payload whose top level has neither a
    ['result'] nor an ['error'] key makes the [try] block raise before any
    alert is built, and the handler recovers: it logs the error and the
    exception, acknowledges the message with the queue untouched, runs the
    drain step, and puts no entry on the publishing queue.  The exception
    is [ReceivedUnexpectedDataException] exactly when both membership tests
    are false, which they are on every object without the two keys; on the
    other payloads (null, a number, a boolean, a str or a list in which a
    test finds the key) it is [TypeError]. *)
Theorem unexpected_payload_recovered (delivery_tag : Z) (d : json) (s : alerter) :
  has_key "result" d = false ->
  has_key "error" d = false ->
  exists e : exn,
    let logged := [Log INFO (Processing d); Log ERROR (ErrorProcessing d);
                   Log ERROR (ExceptionInfo e)] in
    classify d = ([], Some e) /\
    (e = ReceivedUnexpectedDataException \/ e = TypeError) /\
    (e = ReceivedUnexpectedDataException <->
       py_in "result" d = inr false /\ py_in "error" d = inr false) /\
    ((exists m, d = JObj m) -> e = ReceivedUnexpectedDataException) /\
    _process_data delivery_tag (Encodes d) s =
      (rabbitmq (basic_ack delivery_tag false) ;;
       try_except _send_data on_send_error)%M (record_events logged s) /\
    publishing_queue (classify_ack_enqueue delivery_tag (Encodes d) s).2 =
      publishing_queue s /\
    exists evs : list event,
      trace (_process_data delivery_tag (Encodes d) s).2 =
        trace s ++ logged ++ Rabbit (basic_ack delivery_tag false) :: evs /\
      Forall (fun ev => is_put ev = false) evs.
Proof.
  intros Hresult Herror.
  destruct (classify_without_keys d Hresult Herror)
    as (e & Hc & Hcases & Hiff & Hobj).
  exists e. intros logged.
  destruct (process_data_on_error delivery_tag d [] _ s Hc) as [Henq Hall].
  assert (Hlog : Log INFO (Processing d) :: attempt_log d = logged).
  { unfold attempt_log. by rewrite Hc. }
  rewrite Hlog in Hall, Henq.
  split; [done|]. split; [done|]. split; [done|]. split; [done|].
  split; [done|]. split.
  { rewrite Henq. unfold rabbitmq. by destruct (broker _ _). }
  rewrite Hall.
  destruct ((rabbitmq (basic_ack delivery_tag false) ;;
             try_except _send_data on_send_error)%M (record_events logged s))
    as [r s'] eqn:Hrun.
  simpl.
  destruct (ack_then_drain delivery_tag _ s' r Hrun)
    as (evs & delivered & Htrace & Hput & _).
  exists evs. split; [|done]. rewrite Htrace. simpl.
  by rewrite <- app_assoc.
Qed.


(** ** The consumption loop *)

Lemma consuming_loop_cons (d : delivery) (rest : list delivery)
    (entering : bool) (s : alerter) :
  consuming_loop (d :: rest) entering s =
    match consume d (enter entering s) with
    | (Returns true, s1) => consuming_loop rest false s1
    | (Returns false, s1) => consuming_loop rest true s1
    | (Raises e, s1) =>
        match on_consuming_error e s1 with
        | (Returns _, s2) => consuming_loop rest true s2
        | (Raises e', s2) => (Raises e', s2)
        | (Blocks, s2) => (Blocks, s2)
        end
    | (Blocks, s1) => (Blocks, s1)
    end.
Proof.
  simpl. unfold mbind at 1.
  assert (Henter : (if entering then emit StartConsuming else mret tt) s =
                   (Returns tt, enter entering s)) by by destruct entering.
  rewrite Henter. unfold mbind at 1, attempt.
  destruct (consume d (enter entering s)) as [[[|]|e|] s1]; try done.
Qed.

Lemma appends_classification_attempt (d : json) :
  appends (classification_attempt d).
Proof. intros s. rewrite classification_attempt_spec. simpl. eauto. Qed.

Lemma appends_process_data (delivery_tag : Z) (body : message_body) :
  appends (_process_data delivery_tag body).
Proof.
  unfold _process_data, classify_ack_enqueue.
  repeat (apply appends_bind; [|intros ?]);
    try apply appends_emit; try apply appends_rabbitmq;
    try apply appends_classification_attempt; try apply appends_drain.
  - destruct body; [apply appends_raise|apply appends_mret].
  - match goal with |- appends (let '(_, _) := ?p in _) => destruct p as [l []] end.
    + apply appends_bind; [apply appends_rabbitmq|intros ?; apply appends_mret].
    + apply appends_bind; [apply appends_rabbitmq|].
      intros ?. apply appends_place_latest.
Qed.

Lemma appends_consume (d : delivery) : appends (consume d).
Proof.
  destruct d as [delivery_tag body|e|]; simpl.
  - apply appends_bind; [apply appends_process_data|].
    intros ?. apply appends_mret.
  - apply appends_raise.
  - apply appends_mret.
Qed.

Lemma appends_on_consuming_error (e : exn) : appends (on_consuming_error e).
Proof.
  destruct e; simpl;
    try (apply appends_bind; [apply appends_emit|intros ?]);
    try apply appends_raise; try apply appends_mret; apply appends_emit.
Qed.

Lemma appends_consuming_loop (inbox : list delivery) (entering : bool) :
  appends (consuming_loop inbox entering).
Proof.
  revert entering. induction inbox as [|d rest IH]; intros entering; simpl.
  - apply appends_bind; [|intros ?].
    + destruct entering; [apply appends_emit|apply appends_mret].
    + intros s. exists []. simpl. by rewrite app_nil_r.
  - apply appends_bind; [|intros ?].
    + destruct entering; [apply appends_emit|apply appends_mret].
    + apply appends_bind.
      * intros s. unfold attempt. destruct (appends_consume d s) as [evs Hevs].
        exists evs. by destruct (consume d s) as [[b|e|] s1].
      * intros [e|[|]]; try apply IH.
        apply appends_bind; [apply appends_on_consuming_error|].
        intros ?. apply IH.
Qed.

(** An iteration that begins calls [start_consuming] before anything
    else. *)
Lemma consuming_loop_enters (inbox : list delivery) (s : alerter) :
  exists more,
    trace (consuming_loop inbox true s).2 = trace s ++ StartConsuming :: more.
Proof.
  destruct inbox as [|d rest].
  - by exists [].
  - destruct (appends_consuming_loop (d :: rest) false
                (record_event StartConsuming s)) as [evs Hevs].
    exists evs. rewrite consuming_loop_cons. rewrite consuming_loop_cons in Hevs.
    simpl in *. rewrite Hevs. by rewrite <- app_assoc.
Qed.

(** C8.  When a call of [start_consuming] raises [e]: on an
    [AMQPChannelError] the loop goes on at once, nothing is logged and the
    next thing done is a new call of [start_consuming]; on an
    [AMQPConnectionError] the loop is left with [e] raised to the caller; on
    a [MessageWasNotDeliveredException] the exception is logged and the loop
    goes on with a new call of [start_consuming]; on any other [Exception]
    the exception is logged and raised to the caller.  (What is not an
    [Exception] is raised to the caller without a log record.) *)
Theorem consuming_loop_dispatch (d : delivery) (rest : list delivery)
    (entering : bool) (s s1 : alerter) (e : exn) :
  consume d (enter entering s) = (Raises e, s1) ->
  let logged := record_event (Log ERROR (ExceptionInfo e)) s1 in
  let run := consuming_loop (d :: rest) entering s in
  (e = AMQPChannelError ->
     run = consuming_loop rest true s1 /\
     exists more, trace run.2 = trace s1 ++ StartConsuming :: more) /\
  (e = AMQPConnectionError -> run = (Raises e, s1)) /\
  (e = MessageWasNotDeliveredException ->
     run = consuming_loop rest true logged /\
     exists more,
       trace run.2 =
         trace s1 ++ Log ERROR (ExceptionInfo e) :: StartConsuming :: more) /\
  (is_Exception e = true -> e <> AMQPChannelError ->
   e <> AMQPConnectionError -> e <> MessageWasNotDeliveredException ->
     run = (Raises e, logged)) /\
  (is_Exception e = false -> run = (Raises e, s1)).
Proof.
  intros Hconsume logged run.
  assert (Hrun : run =
    match on_consuming_error e s1 with
    | (Returns _, s2) => consuming_loop rest true s2
    | (Raises e', s2) => (Raises e', s2)
    | (Blocks, s2) => (Blocks, s2)
    end).
  { subst run. by rewrite consuming_loop_cons, Hconsume. }
  split; [|split; [|split; [|split]]].
  - intros ->. split; [by rewrite Hrun|].
    rewrite Hrun. simpl. apply consuming_loop_enters.
  - intros ->. by rewrite Hrun.
  - intros ->. split; [by rewrite Hrun|].
    rewrite Hrun. simpl.
    destruct (consuming_loop_enters rest
                (record_event
                   (Log ERROR (ExceptionInfo MessageWasNotDeliveredException)) s1))
      as [more Hmore].
    exists more. rewrite Hmore. simpl. by rewrite <- app_assoc.
  - intros Hexc H1 H2 H3. rewrite Hrun. by destruct e.
  - intros Hexc. rewrite Hrun. by destruct e.
Qed.


(** ** The prefetch count *)

(** [digits2_pos] is the size in bits. *)
Lemma digits2_pos_size (p : positive) : digits2_pos p = Pos.size p.
Proof. induction p; simpl; congruence. Qed.

Lemma Zdigits2_log2 (p : positive) : Zdigits2 (Z.pos p) = Z.log2 (Z.pos p) + 1.
Proof.
  unfold Zdigits2. rewrite digits2_pos_size.
  destruct p; simpl; try reflexivity; lia.
Qed.

Lemma Zdigits2_bounds (m d : Z) :
  0 < d -> 2 ^ (d - 1) <= m < 2 ^ d -> Zdigits2 m = d.
Proof.
  intros Hd Hm.
  assert (0 < m) by (pose proof (Z.pow_pos_nonneg 2 (d - 1)); lia).
  destruct m as [|p|p]; try lia.
  rewrite Zdigits2_log2.
  rewrite (Z.log2_unique (Z.pos p) (d - 1)); try lia.
  replace (Z.succ (d - 1)) with d by lia. lia.
Qed.

Lemma fexp_normal (x : Z) : -1021 <= x -> fexp 53 1024 x = x - 53.
Proof. intros Hx. unfold fexp, emin. lia. Qed.

Lemma shr_record_of_loc_m (m : Z) (l : location) :
  shr_m (shr_record_of_loc m l) = m.
Proof. destruct l as [|[]]; reflexivity. Qed.

Lemma loc_of_shr_record_of_loc (m : Z) (l : location) :
  loc_of_shr_record (shr_record_of_loc m l) = l.
Proof. destruct l as [|[]]; reflexivity. Qed.

Lemma shr_fexp_53 (m e : Z) (l : location) :
  2 ^ 52 <= m < 2 ^ 53 -> -1074 <= e ->
  shr_fexp 53 1024 m e l = (shr_record_of_loc m l, e).
Proof.
  intros Hm He. unfold shr_fexp.
  rewrite (Zdigits2_bounds m 53) by (change (53 - 1) with 52; lia).
  rewrite fexp_normal by lia.
  replace (53 + e - 53 - e) with 0 by lia. reflexivity.
Qed.

Lemma shr_fexp_54 (m e : Z) (l : location) :
  2 ^ 53 <= m < 2 ^ 54 -> -1075 <= e ->
  shr_fexp 53 1024 m e l = (shr_1 (shr_record_of_loc m l), e + 1).
Proof.
  intros Hm He. unfold shr_fexp.
  rewrite (Zdigits2_bounds m 54) by (change (54 - 1) with 53; lia).
  rewrite fexp_normal by lia.
  replace (54 + e - 53 - e) with 1 by lia. reflexivity.
Qed.

Lemma shr_1_spec (m : Z) (r s : bool) :
  0 < m ->
  shr_1 {| shr_m := m; shr_r := r; shr_s := s |} =
    {| shr_m := Z.div2 m; shr_r := Z.odd m; shr_s := r || s |}.
Proof. intros Hm. destruct m as [|[p|p|]|p]; try lia; reflexivity. Qed.

(** The second normalisation of [binary_round_aux], on a mantissa of 53
    bits or on [2 ^ 53]. *)
Lemma renormalize_53 (m1 e : Z) :
  2 ^ 52 <= m1 <= 2 ^ 53 -> -1074 <= e <= 0 ->
  exists (m : positive) (k : Z),
    (let '(mrs, e2) := shr_fexp 53 1024 m1 e loc_Exact in
     match shr_m mrs with
     | Z0 => S754_zero false
     | Z.pos m => if e2 <=? 1024 - 53 then S754_finite false m e2
                  else S754_infinity false
     | Z.neg _ => S754_nan
     end) = S754_finite false m (e + k) /\
    0 <= k <= 1 /\ Z.pos m * 2 ^ k = m1.
Proof.
  intros Hm He.
  destruct (Z.eq_dec m1 (2 ^ 53)) as [->|Hne].
  - rewrite shr_fexp_54 by lia.
    exists (Z.to_pos (2 ^ 52)), 1. split; [|split; [lia|reflexivity]].
    change (shr_m (shr_1 (shr_record_of_loc (2 ^ 53) loc_Exact)))
      with (Z.pos (Z.to_pos (2 ^ 52))).
    cbv iota beta.
    destruct (Z.leb_spec (e + 1) (1024 - 53)); [reflexivity|lia].
  - rewrite shr_fexp_53 by lia.
    destruct m1 as [|m|m]; try lia.
    exists m, 0. split; [|split; [lia|lia]].
    cbn [shr_m shr_record_of_loc].
    replace (e + 0) with e by lia.
    destruct (Z.leb_spec e (1024 - 53)); [reflexivity|lia].
Qed.

Lemma new_location_5 (r : Z) :
  0 <= r < 5 ->
  new_location 5 r =
    if r =? 0 then loc_Exact
    else if r <=? 2 then loc_Inexact Lt else loc_Inexact Gt.
Proof.
  intros Hr.
  assert (r = 0 \/ r = 1 \/ r = 2 \/ r = 3 \/ r = 4) as [->|[->|[->|[->| ->]]]]
    by lia; reflexivity.
Qed.

Lemma binary_round_aux_fifth (q r e : Z) :
  2 ^ 52 <= q < 2 ^ 54 -> 0 <= r < 5 -> -1074 <= e <= -2 ->
  exists (m : positive) (k : Z),
    binary_round_aux 53 1024 false q e (new_location 5 r) =
      S754_finite false m (e + k) /\
    0 <= k <= 2 /\
    -5 <= 5 * (Z.pos m * 2 ^ k) - (5 * q + r) <= 5.
Proof.
  intros Hq Hr He. rewrite new_location_5 by done.
  unfold binary_round_aux.
  destruct (Z_lt_le_dec q (2 ^ 53)) as [Hsmall|Hlarge].
  - rewrite shr_fexp_53 by lia.
    rewrite shr_record_of_loc_m, loc_of_shr_record_of_loc.
    set (m1 := round_nearest_even q _).
    assert (Hm1 : (r <= 2 /\ m1 = q) \/ (3 <= r /\ m1 = q + 1)).
    { subst m1. destruct (Z.eqb_spec r 0); [left; split; [lia|reflexivity]|].
      destruct (Z.leb_spec r 2); [left|right]; (split; [lia|reflexivity]). }
    destruct (renormalize_53 m1 e) as (m & k & Hrun & Hk & Hm); [lia|lia|].
    exists m, k. rewrite Hrun. split; [reflexivity|]. split; [lia|].
    rewrite Hm. lia.
  - rewrite shr_fexp_54 by lia.
    set (l := if r =? 0 then _ else _).
    assert (Hl : exists rb sb, shr_record_of_loc q l =
                   {| shr_m := q; shr_r := rb; shr_s := sb |} /\
                   (rb || sb = negb (r =? 0))%bool).
    { subst l. destruct (Z.eqb_spec r 0); [by exists false, false|].
      destruct (Z.leb_spec r 2); [by exists false, true|by exists true, true]. }
    destruct Hl as (rb & sb & -> & Hsticky).
    rewrite shr_1_spec by lia. rewrite Hsticky.
    cbn [shr_m loc_of_shr_record].
    pose proof (Z.div2_odd q) as Hq2.
    set (h := Z.div2 q) in *.
    set (m1 := round_nearest_even h _).
    assert (Hm1 : -5 <= 10 * m1 - (5 * q + r) <= 5 /\ h <= m1 <= h + 1).
    { subst m1. destruct (Z.odd q), (Z.eqb_spec r 0); cbn [negb Z.b2z] in *.
      - cbn [loc_of_shr_record round_nearest_even].
        destruct (Z.even h); lia.
      - cbn [loc_of_shr_record round_nearest_even]. lia.
      - cbn [loc_of_shr_record round_nearest_even]. lia.
      - cbn [loc_of_shr_record round_nearest_even]. lia. }
    destruct (renormalize_53 m1 (e + 1)) as (m & k & Hrun & Hk & Hm); [lia|lia|].
    exists m, (k + 1). rewrite Hrun. split; [f_equal; lia|]. split; [lia|].
    rewrite Z.pow_add_r by lia. change (2 ^ 1) with 2. lia.
Qed.

Lemma SFdiv_core_fifth (p : positive) :
  let d := Zdigits2 (Z.pos p) in
  d <= 52 ->
  SFdiv_core_binary 53 1024 (Z.pos p) 0 5 0 =
    let X := Z.pos p * 2 ^ (56 - d) in
    (X / 5, d - 56, new_location 5 (X mod 5)).
Proof.
  intros d Hd. unfold SFdiv_core_binary. fold d.
  change (Zdigits2 5) with 3.
  assert (Hd0 : 0 < d) by (subst d; simpl; lia).
  rewrite fexp_normal by lia.
  replace (Z.min (d + 0 - (3 + 0) - 53) (0 - 0)) with (d - 56) by lia.
  replace (0 - 0 - (d - 56)) with (56 - d) by lia.
  destruct (56 - d) as [|s|s] eqn:Hs; try lia.
  rewrite Z.shiftl_mul_pow2 by lia.
  cbv zeta. unfold Z.div, Z.modulo.
  by destruct (Z.div_eucl (Z.pos p * 2 ^ Z.pos s) 5).
Qed.

(** [round] gives [T] on a float less than half a unit away from [T]. *)
Lemma py_round_nearest (m : positive) (e T : Z) :
  e < 0 ->
  - 2 ^ (- e) < 2 * (Z.pos m - T * 2 ^ (- e)) < 2 ^ (- e) ->
  py_round (S754_finite false m e) = inr T.
Proof.
  intros He Hnear. unfold py_round.
  destruct (Z.leb_spec 0 e); [lia|].
  rewrite Z.shiftl_1_l. set (U := 2 ^ (- e)) in *.
  assert (HU : 0 < U) by (apply Z.pow_pos_nonneg; lia).
  cbv zeta. cbn [cond_Zopp]. f_equal.
  pose proof (Z.div_mod (Z.pos m) U ltac:(lia)) as Hdm.
  pose proof (Z.mod_pos_bound (Z.pos m) U HU) as Hr.
  set (q := Z.pos m / U) in *. set (r := Z.pos m mod U) in *.
  set (M := Z.pos m) in *. clearbody q r M U.
  assert (HD : exists D, q = T + D) by (exists (q - T); lia).
  destruct HD as [D ->].
  assert (Hnear' : - U < 2 * (D * U + r) < U) by (subst M; lia).
  assert (HD : D = 0 \/ D = -1).
  { destruct (Z_le_gt_dec 1 D); [exfalso; nia|].
    destruct (Z_le_gt_dec D (-2)); [exfalso; nia|]. lia. }
  destruct (Z.compare_spec (2 * r) U) as [Heq|Hlt|Hgt];
    destruct HD as [-> | ->]; lia.
Qed.

(** On ints from 0 to below [2 ^ 52], [round(maxsize / 5)] is the int
    nearest to the fifth of [maxsize]. *)
Lemma prefetch_count_nearest (N : Z) :
  0 <= N < 2 ^ 52 -> prefetch_count_of N = inr ((2 * N + 5) / 10).
Proof.
  intros HN. destruct N as [|p|p]; [reflexivity| |lia].
  unfold prefetch_count_of, py_truediv.
  change (5 =? 0) with false. cbv iota.
  change (float_of_Z (Z.pos p)) with (S754_finite false p 0).
  change (float_of_Z 5) with (S754_finite false 5 0).
  unfold SFdiv.
  set (d := Zdigits2 (Z.pos p)).
  assert (Hd : 2 ^ (d - 1) <= Z.pos p < 2 ^ d /\ 0 < d).
  { subst d. rewrite Zdigits2_log2.
    pose proof (Z.log2_spec (Z.pos p) ltac:(lia)) as Hlog.
    pose proof (Z.log2_nonneg (Z.pos p)).
    replace (Z.log2 (Z.pos p) + 1 - 1) with (Z.log2 (Z.pos p)) by lia.
    replace (Z.log2 (Z.pos p) + 1) with (Z.succ (Z.log2 (Z.pos p))) by lia.
    split; [done|lia]. }
  destruct Hd as [Hp Hd0].
  assert (Hd52 : d <= 52).
  { destruct (Z_le_gt_dec d 52); [done|].
    assert (2 ^ 52 <= 2 ^ (d - 1)) by (apply Z.pow_le_mono_r; lia). lia. }
  rewrite SFdiv_core_fifth by done. fold d. cbv zeta.
  set (u := 2 ^ (56 - d)).
  assert (Hu : 16 <= u).
  { subst u. change 16 with (2 ^ 4). apply Z.pow_le_mono_r; lia. }
  assert (HX : 2 ^ 55 <= Z.pos p * u < 2 ^ 56).
  { subst u.
    replace (2 ^ 55) with (2 ^ (d - 1) * 2 ^ (56 - d))
      by (rewrite <- Z.pow_add_r by lia; f_equal; lia).
    replace (2 ^ 56) with (2 ^ d * 2 ^ (56 - d))
      by (rewrite <- Z.pow_add_r by lia; f_equal; lia).
    assert (0 < 2 ^ (56 - d)) by (apply Z.pow_pos_nonneg; lia). nia. }
  set (X := Z.pos p * u) in *.
  pose proof (Z.div_mod X 5 ltac:(lia)) as Hdm.
  pose proof (Z.mod_pos_bound X 5 ltac:(lia)) as Hr.
  destruct (binary_round_aux_fifth (X / 5) (X mod 5) (d - 56))
    as (m & k & Hrun & Hk & Herr); [lia|done|lia|].
  change (xorb false false) with false. rewrite Hrun. cbn [ebind].
  apply py_round_nearest; [lia|].
  set (T := (2 * Z.pos p + 5) / 10).
  assert (HT : -2 <= Z.pos p - 5 * T <= 2).
  { pose proof (Z.div_mod (2 * Z.pos p + 5) 10 ltac:(lia)).
    pose proof (Z.mod_pos_bound (2 * Z.pos p + 5) 10 ltac:(lia)).
    fold T in H. lia. }
  replace (- (d - 56 + k)) with (56 - d - k) by lia.
  set (U := 2 ^ (56 - d - k)).
  assert (HU : u = U * 2 ^ k).
  { subst u U. rewrite <- Z.pow_add_r by lia. f_equal. lia. }
  assert (Hk2 : 1 <= 2 ^ k <= 4).
  { assert (k = 0 \/ k = 1 \/ k = 2) as [->|[->| ->]] by lia; done. }
  assert (0 < U) by (apply Z.pow_pos_nonneg; lia).
  replace (5 * (X / 5) + X mod 5) with X in Herr by lia.
  set (K := 2 ^ k) in *. set (M := Z.pos m) in *. set (P := Z.pos p) in *.
  assert (HX' : X = P * U * K) by (subst X; rewrite HU; ring).
  clearbody K U M P T X u. subst X u.
  assert (Hg : exists g, P = 5 * T + g /\ -2 <= g <= 2) by (exists (P - 5 * T); lia).
  destruct Hg as (g & -> & Hg).
  (* 5 (M - T U) K = 5 M K - X + g U K *)
  assert (Hmain : -5 - 2 * (U * K) <= 5 * ((M - T * U) * K) <= 5 + 2 * (U * K)) by nia.
  assert (HUK : 16 <= U * K) by lia.
  split; nia.
Qed.

(** ** Initialisation *)

Lemma initialize_alerter_reliable (s : alerter) (prefetch_count : Z) :
  (forall n, broker s n = None) ->
  prefetch_count_of (maxsize s) = inr prefetch_count ->
  exists s',
    _initialize_alerter s = (Returns tt, s') /\
    trace s' = trace s ++ initialization prefetch_count.
Proof.
  intros Hbroker Hprefetch. unfold _initialize_alerter.
  unfold mbind, rabbitmq, logger, emit, record_event.
  cbn -[prefetch_count_of]. rewrite !Hbroker.
  match goal with
  | |- context [prefetch_count_of (maxsize ?x)] =>
      change (maxsize x) with (maxsize s)
  end.
  rewrite Hprefetch.
  cbn. rewrite !Hbroker.
  eexists. split; [reflexivity|]. cbn.
  by rewrite <- !app_assoc.
Qed.

(** C10 (as amended).  For a publishing queue whose [maxsize] is from 0 to
    below [2 ^ 52], and a broker that accepts the calls, initialisation sets
    the prefetch count to the fifth of [maxsize] rounded to the nearest int:
    the two differ by less than half a unit, and the prefetch count is
    [maxsize / 5] exactly when [maxsize] is a multiple of 5. *)
Theorem prefetch_is_nearest_fifth (s : alerter) :
  0 <= maxsize s < 2 ^ 52 ->
  (forall n, broker s n = None) ->
  let prefetch_count := (2 * maxsize s + 5) / 10 in
  (exists s',
     _initialize_alerter s = (Returns tt, s') /\
     trace s' = trace s ++ initialization prefetch_count) /\
  -2 <= maxsize s - 5 * prefetch_count <= 2 /\
  (maxsize s mod 5 = 0 -> prefetch_count = maxsize s / 5).
Proof.
  intros Hsize Hbroker prefetch_count.
  split; [|split].
  - apply initialize_alerter_reliable; [done|].
    by apply prefetch_count_nearest.
  - subst prefetch_count.
    pose proof (Z.div_mod (2 * maxsize s + 5) 10 ltac:(lia)).
    pose proof (Z.mod_pos_bound (2 * maxsize s + 5) 10 ltac:(lia)).
    lia.
  - intros Hmultiple. subst prefetch_count.
    pose proof (Z.div_mod (maxsize s) 5 ltac:(lia)) as Hfifth.
    rewrite Hmultiple in Hfifth.
    set (k := maxsize s / 5) in *.
    replace (2 * maxsize s + 5) with (5 + k * 10) by lia.
    rewrite Z.div_add by lia. reflexivity.
Qed.


(** * Further properties *)

(** ** Classification *)

Lemma release_alerts_length (meta data : json) (indices : list Z)
    (acc l : list alert_data) (raised : option exn) :
  release_alerts meta data indices acc = (l, raised) ->
  (length l <= length acc + length indices)%nat /\
  (raised = None -> length l = (length acc + length indices)%nat) /\
  (raised <> None -> (length l < length acc + length indices)%nat).
Proof.
  revert acc. induction indices as [|i rest IH]; intros acc; simpl.
  - intros [= <- <-]. split; [lia|]. split; [lia|done].
  - destruct (release_alert meta data i) as [e|alert].
    + intros [= <- <-]. split; [lia|]. split; [done|lia].
    + intros Hrun. apply IH in Hrun. rewrite length_app in Hrun. simpl in Hrun.
      destruct Hrun as (H1 & H2 & H3).
      split; [lia|]. split; intros H; [specialize (H2 H)|specialize (H3 H)]; lia.
Qed.

Lemma py_in_result (d result : json) :
  d.["result"] = inr result -> py_in "result" d = inr true.
Proof.
  destruct d; try discriminate. simpl. by destruct (m !! "result").
Qed.

(** X1.  For a payload with a ['result'] key whose counters are two ints,
    classification never yields more than [max(0, current - previous)]
    alerts; it yields exactly that many when it raises nothing, and fewer
    when it raises although [current > previous]. *)
Theorem classify_result_count (d result data counters : json) (c p : Z) :
  d.["result"] = inr result ->
  result.["data"] = inr data ->
  data.["no_of_releases"] = inr counters ->
  counters.["current"] = inr (JInt c) ->
  counters.["previous"] = inr (JInt p) ->
  Z.of_nat (length (classify d).1) <= Z.max 0 (c - p) /\
  ((classify d).2 = None ->
   Z.of_nat (length (classify d).1) = Z.max 0 (c - p)) /\
  ((classify d).2 <> None -> p < c ->
   Z.of_nat (length (classify d).1) < c - p).
Proof.
  intros Hresult Hdata Hcounters Hcurrent Hprevious.
  unfold classify. rewrite (py_in_result d result Hresult).
  unfold classify_result, result_header. rewrite Hresult. cbn [ebind].
  destruct (result.["meta_data"]) as [e|meta]; cbn [ebind].
  { simpl. split; [lia|]. split; [done|lia]. }
  rewrite Hdata. cbn [ebind]. rewrite Hcounters. cbn [ebind].
  rewrite Hcurrent, Hprevious. cbn [ebind py_int].
  destruct (Z.ltb_spec p c) as [Hlt|Hle].
  - cbn [py_sub as_number ebind py_range0].
    destruct (release_alerts meta data (range0 (c - p)) []) as [l raised] eqn:Hrun.
    apply release_alerts_length in Hrun. rewrite length_range0 in Hrun.
    simpl in *. destruct Hrun as (H1 & H2 & H3).
    split; [lia|]. split; intros H; [specialize (H2 H)|specialize (H3 H)]; lia.
  - simpl. split; [lia|]. split; [lia|done].
Qed.

Lemma release_alerts_stop (meta data : json) (alert_at : Z -> alert_data)
    (before after : list Z) (k : Z) (e : exn) (acc : list alert_data) :
  (forall i, i ∈ before -> release_alert meta data i = inr (alert_at i)) ->
  release_alert meta data k = inl e ->
  release_alerts meta data (before ++ k :: after) acc =
    (acc ++ (alert_at <$> before), Some e).
Proof.
  revert acc. induction before as [|i rest IH]; intros acc Hall Hk; simpl.
  - by rewrite Hk, app_nil_r.
  - rewrite Hall; [|by left].
    rewrite IH; [|intros j Hj; apply Hall; by right|done].
    by rewrite <- app_assoc.
Qed.

Lemma range0_split (n k : Z) :
  0 <= k < n -> exists after, range0 n = range0 k ++ k :: after.
Proof.
  intros Hk. unfold range0.
  replace (Z.to_nat n) with (Z.to_nat k + S (Z.to_nat n - Z.to_nat k - 1))%nat
    by lia.
  rewrite seq_app, fmap_app. simpl.
  eexists. f_equal. f_equal. lia.
Qed.

(** X2.  When the releases at the keys [str(0)] .. [str(k - 1)] are
    present and the one at [str(k)] is not, for an index [k] below
    [current - previous], the loop stops at [k]: it raises [KeyError] on
    that key, and [data_for_alerting] holds the [k] alerts built before,
    in order. *)
Theorem classify_stops_at_missing_release
    (d result meta data counters : json) (releases : gmap string json)
    (c p k : Z) (release release_name tag_name : Z -> json)
    (repo_name last_monitored repo_parent_id repo_id : json) :
  d.["result"] = inr result ->
  result.["meta_data"] = inr meta ->
  result.["data"] = inr data ->
  data.["no_of_releases"] = inr counters ->
  counters.["current"] = inr (JInt c) ->
  counters.["previous"] = inr (JInt p) ->
  meta.["repo_name"] = inr repo_name ->
  meta.["last_monitored"] = inr last_monitored ->
  meta.["repo_parent_id"] = inr repo_parent_id ->
  meta.["repo_id"] = inr repo_id ->
  data.["releases"] = inr (JObj releases) ->
  0 <= k < c - p ->
  (forall i, 0 <= i < k ->
     releases !! py_str i = Some (release i) /\
     (release i).["release_name"] = inr (release_name i) /\
     (release i).["tag_name"] = inr (tag_name i)) ->
  releases !! py_str k = None ->
  classify d =
    ((fun i => NewGitHubReleaseAlert repo_name (release_name i) (tag_name i)
                 "INFO" last_monitored repo_parent_id repo_id)
       <$> range0 k, Some (KeyError (py_str k))).
Proof.
  intros Hresult Hmeta Hdata Hcounters Hcurrent Hprevious
    Hname Hlast Hparent Hid Hreleases Hk Hbefore Hmissing.
  unfold classify. rewrite (py_in_result d result Hresult).
  unfold classify_result, result_header. rewrite Hresult. cbn [ebind].
  rewrite Hmeta, Hdata. cbn [ebind]. rewrite Hcounters. cbn [ebind].
  rewrite Hcurrent, Hprevious. cbn [ebind py_int].
  destruct (Z.ltb_spec p c) as [Hlt|Hle]; [|lia].
  cbn [py_sub as_number ebind py_range0].
  destruct (range0_split (c - p) k Hk) as [after ->].
  set (alert_at := fun i => NewGitHubReleaseAlert _ _ _ _ _ _ _).
  rewrite (release_alerts_stop meta data alert_at _ _ _ (KeyError (py_str k)));
    [done| |].
  - intros i Hi. apply elem_of_range0 in Hi.
    destruct (Hbefore i Hi) as (Hrel & Hrn & Htn).
    unfold release_alert. rewrite Hname, Hreleases. cbn [ebind py_getitem].
    rewrite Hrel. cbn [ebind]. rewrite Hrn, Htn. cbn [ebind].
    by rewrite Hlast, Hparent, Hid.
  - unfold release_alert. rewrite Hname, Hreleases. cbn [ebind py_getitem].
    by rewrite Hmissing.
Qed.

Lemma py_range0_float (f : spec_float) : py_range0 (JFloat f) = inl TypeError.
Proof. reflexivity. Qed.

(** [current - previous] is an int only on two ints (or bools). *)
Lemma py_sub_range0 (a b : json) (indices : list Z) :
  (delta <- py_sub a b; py_range0 delta)%expr = inr indices ->
  is_int a = true /\ is_int b = true.
Proof.
  unfold py_sub.
  destruct a as [| |x|f|s|l|m], b as [| |y|g|s'|l'|m']; simpl; try done;
    try (destruct (float_of_int _); simpl; done).
Qed.

(** X3.  Alerts come out of the ['result'] branch only when both counters
    are ints (or bools, which are ints) with [int(current) > int(previous)]:
    a counter that is a float, a str or anything else never yields an
    alert, whatever its value. *)
Theorem classify_emits_on_ints_only
    (d result data counters current previous : json) :
  d.["result"] = inr result ->
  result.["data"] = inr data ->
  data.["no_of_releases"] = inr counters ->
  counters.["current"] = inr current ->
  counters.["previous"] = inr previous ->
  (classify d).1 <> [] ->
  is_int current = true /\ is_int previous = true /\
  exists c p, py_int current = inr c /\ py_int previous = inr p /\ p < c.
Proof.
  intros Hresult Hdata Hcounters Hcurrent Hprevious.
  unfold classify. rewrite (py_in_result d result Hresult).
  unfold classify_result, result_header. rewrite Hresult. cbn [ebind].
  destruct (result.["meta_data"]) as [e|meta]; cbn [ebind]; [done|].
  rewrite Hdata. cbn [ebind]. rewrite Hcounters. cbn [ebind].
  rewrite Hcurrent, Hprevious. cbn [ebind].
  assert (Hguard : forall x : exn + (json * json * list Z),
    x = (c <- py_int current; p <- py_int previous;
         if (p <? c)%Z
         then (delta <- py_sub current previous;
               indices <- py_range0 delta; inr (meta, data, indices))
         else inr (meta, data, []))%expr ->
    (match x with
     | inl e => ([], Some e)
     | inr (meta, data, indices) => release_alerts meta data indices []
     end).1 <> [] ->
    is_int current = true /\ is_int previous = true /\
    exists c p, py_int current = inr c /\ py_int previous = inr p /\ p < c).
  { intros x -> Hne.
    destruct (py_int current) as [e|c] eqn:Hc'; cbn [ebind] in Hne; [done|].
    destruct (py_int previous) as [e|p] eqn:Hp'; cbn [ebind] in Hne; [done|].
    destruct (Z.ltb_spec p c) as [Hlt|Hle]; [|done].
    destruct (delta <- py_sub current previous; py_range0 delta)%expr
      as [e|indices] eqn:Hsub.
    - unfold ebind in Hsub, Hne.
      destruct (py_sub current previous) as [e'|delta]; [done|].
      by rewrite Hsub in Hne.
    - destruct (py_sub_range0 _ _ _ Hsub) as [Hc Hp].
      split; [done|]. split; [done|]. by exists c, p. }
  destruct previous; try (by apply Hguard); done.
Qed.

(** X4.  On a payload with an ['error'] key and without a ['result'] key,
    classification raises nothing exactly when [error['meta_data']] can be
    read and has the four fields [repo_name], [time], [repo_parent_id] and
    [repo_id]; it then yields one alert, and none when it raises. *)
Theorem classify_error_succeeds_iff (m : gmap string json) (error : json) :
  m !! "result" = None ->
  m !! "error" = Some error ->
  ((classify (JObj m)).2 = None <->
   exists meta_data repo_name time repo_parent_id repo_id,
     error.["meta_data"] = inr meta_data /\
     meta_data.["repo_name"] = inr repo_name /\
     meta_data.["time"] = inr time /\
     meta_data.["repo_parent_id"] = inr repo_parent_id /\
     meta_data.["repo_id"] = inr repo_id) /\
  length (classify (JObj m)).1 =
    (if (classify (JObj m)).2 is None then 1 else 0)%nat.
Proof.
  intros Hresult Herror.
  unfold classify; simpl. rewrite Hresult, Herror.
  unfold classify_error, cannot_access_alert; simpl. rewrite Herror.
  cbn [ebind].
  destruct (error.["meta_data"]) as [e|meta_data] eqn:E0; cbn [ebind].
  { split; [|done]. split; [done|]. intros (? & ? & ? & ? & ? & ? & _). congruence. }
  destruct (meta_data.["repo_name"]) as [e|repo_name] eqn:E1; cbn [ebind].
  { split; [|done]. split; [done|].
    intros (? & ? & ? & ? & ? & ? & ? & _). congruence. }
  destruct (meta_data.["time"]) as [e|time] eqn:E2; cbn [ebind].
  { split; [|done]. split; [done|].
    intros (? & ? & ? & ? & ? & ? & _ & ? & _). congruence. }
  destruct (meta_data.["repo_parent_id"]) as [e|repo_parent_id] eqn:E3; cbn [ebind].
  { split; [|done]. split; [done|].
    intros (? & ? & ? & ? & ? & ? & _ & _ & ? & _). congruence. }
  destruct (meta_data.["repo_id"]) as [e|repo_id] eqn:E4; cbn [ebind].
  { split; [|done]. split; [done|].
    intros (? & ? & ? & ? & ? & ? & _ & _ & _ & ?). congruence. }
  split; [|done]. split; [|done]. intros _. eauto 10.
Qed.

(** ** The publishing queue *)

Lemma gets_of_app (evs evs' : list event) :
  gets_of (evs ++ evs') = gets_of evs ++ gets_of evs'.
Proof. apply omap_app. Qed.

Lemma puts_of_app (evs evs' : list event) :
  puts_of (evs ++ evs') = puts_of evs ++ puts_of evs'.
Proof. apply omap_app. Qed.

(** One round of the loop of [_place_latest_data_on_queue] on a queue
    that is not full. *)
Lemma place_one_room (alert : alert_data) (rest : list alert_data) (s : alerter) :
  is_full s = false ->
  _place_latest_data_on_queue (alert :: rest) s =
    _place_latest_data_on_queue rest
      (record_events [Log DEBUG (Adding alert); QueuePut (queue_entry alert);
                      Log DEBUG (Added alert)]
         (set_queue (publishing_queue s ++ [queue_entry alert]) s)).
Proof.
  intros Hfull. simpl.
  unfold mbind at 1, logger at 1, emit at 1.
  unfold mbind at 1, queue_full at 1.
  replace (is_full (record_event (Log DEBUG (Adding alert)) s)) with (is_full s)
    by done.
  rewrite Hfull. unfold mbind at 1. unfold mret at 1.
  unfold mbind at 1. unfold queue_put at 1.
  replace (is_full (record_event (Log DEBUG (Adding alert)) s)) with (is_full s)
    by done.
  rewrite Hfull. unfold mbind at 1, logger at 1, emit at 1.
  f_equal. unfold record_event, record_events, set_queue. simpl.
  by rewrite <- !app_assoc.
Qed.

(** One round of the loop, on any queue within its [maxsize]. *)
Lemma place_step (alert : alert_data) (rest : list alert_data) (s : alerter) :
  within_maxsize s ->
  exists (s1 : alerter) (evs : list event),
    _place_latest_data_on_queue (alert :: rest) s =
      _place_latest_data_on_queue rest s1 /\
    trace s1 = trace s ++ evs /\
    maxsize s1 = maxsize s /\
    broker s1 = broker s /\
    broker_calls s1 = broker_calls s /\
    within_maxsize s1 /\
    puts_of evs = [queue_entry alert] /\
    publishing_queue s ++ [queue_entry alert] =
      gets_of evs ++ publishing_queue s1 /\
    (is_full s = false -> gets_of evs = []).
Proof.
  intros Hok. destruct (is_full s) eqn:Hfull.
  - assert (HN : 0 < maxsize s).
    { unfold is_full in Hfull. apply andb_prop in Hfull as [H _].
      by apply Z.ltb_lt. }
    destruct (place_one alert rest s HN (Hok HN))
      as (s1 & Hstep & Hmax & Hbroker & Hcalls & Hq & Htrace & Hlen).
    rewrite Hfull in Hq, Htrace.
    exists s1. eexists. split; [exact Hstep|]. split; [exact Htrace|].
    split; [done|]. split; [done|]. split; [done|].
    split; [intros _; by rewrite Hmax|].
    unfold is_full in Hfull. apply andb_prop in Hfull as [_ Hfull].
    apply Z.leb_le in Hfull.
    destruct (publishing_queue s) as [|oldest q]; simpl in *; [lia|].
    rewrite Hq. done.
  - rewrite (place_one_room alert rest s Hfull).
    eexists. eexists. split; [reflexivity|]. simpl.
    split; [reflexivity|]. split; [done|]. split; [done|]. split; [done|].
    split; [|done].
    intros HN. change (0 < maxsize s) in HN.
    change (Z.of_nat (length (publishing_queue s ++ [queue_entry alert]))
            <= maxsize s).
    rewrite length_app. cbn [length].
    unfold is_full in Hfull. apply andb_false_iff in Hfull as [H|H].
    + apply Z.ltb_ge in H. lia.
    + apply Z.leb_gt in H. lia.
Qed.

Lemma place_latest_events (data_list : list alert_data) (s : alerter) :
  within_maxsize s ->
  exists (s' : alerter) (evs : list event),
    _place_latest_data_on_queue data_list s = (Returns tt, s') /\
    trace s' = trace s ++ evs /\
    maxsize s' = maxsize s /\
    broker s' = broker s /\
    broker_calls s' = broker_calls s /\
    within_maxsize s' /\
    puts_of evs = queue_entry <$> data_list /\
    publishing_queue s ++ puts_of evs = gets_of evs ++ publishing_queue s' /\
    (maxsize s <= 0 \/
     Z.of_nat (length (publishing_queue s) + length data_list) <= maxsize s ->
     gets_of evs = []).
Proof.
  revert s. induction data_list as [|alert rest IH]; intros s Hok.
  - exists s, []. simpl. rewrite !app_nil_r. done.
  - destruct (place_step alert rest s Hok)
      as (s1 & evs1 & Hstep & Htrace1 & Hmax1 & Hbroker1 & Hcalls1 & Hok1
          & Hputs1 & Hkeep1 & Hroom1).
    destruct (IH s1 Hok1)
      as (s' & evs & Hrun & Htrace & Hmax & Hbroker & Hcalls & Hok'
          & Hputs & Hkeep & Hroom).
    exists s', (evs1 ++ evs). rewrite Hstep, Hrun.
    split; [done|]. split; [by rewrite Htrace, Htrace1, app_assoc|].
    split; [congruence|]. split; [congruence|]. split; [congruence|].
    split; [done|].
    rewrite puts_of_app, gets_of_app, Hputs1, Hputs.
    split; [done|]. split.
    + rewrite <- Hputs, <- app_assoc, <- Hkeep.
      rewrite !app_assoc. f_equal. exact Hkeep1.
    + intros Hcase.
      assert (Hfull : is_full s = false).
      { unfold is_full. apply andb_false_iff.
        destruct Hcase as [H|H]; [left; apply Z.ltb_ge; lia|].
        right. apply Z.leb_gt. simpl in H. lia. }
      specialize (Hroom1 Hfull). rewrite Hroom1 in Hkeep1 |- *. simpl in *.
      apply Hroom. rewrite Hmax1, <- Hkeep1, length_app. simpl in *.
      destruct Hcase as [H|H]; [by left|right; lia].
Qed.

(** X5.  On a queue within its [maxsize], [_place_latest_data_on_queue]
    returns, puts every alert of the list once and in order, and loses
    nothing silently: what the queue held followed by what was put is what
    was evicted followed by what the queue holds.  The queue stays within
    its [maxsize]. *)
Theorem place_latest_conserves (data_list : list alert_data) (s : alerter) :
  within_maxsize s ->
  exists (s' : alerter) (evs : list event),
    _place_latest_data_on_queue data_list s = (Returns tt, s') /\
    trace s' = trace s ++ evs /\
    puts_of evs = queue_entry <$> data_list /\
    publishing_queue s ++ (queue_entry <$> data_list) =
      gets_of evs ++ publishing_queue s' /\
    within_maxsize s'.
Proof.
  intros Hok.
  destruct (place_latest_events data_list s Hok)
    as (s' & evs & Hrun & Htrace & _ & _ & _ & Hok' & Hputs & Hkeep & _).
  exists s', evs. rewrite <- Hputs. done.
Qed.

(** X6.  When the queue has no [maxsize] ([maxsize <= 0]) or has room for
    the whole list, [_place_latest_data_on_queue] evicts nothing: the queue
    gains the entries of the list at its back, in order. *)
Theorem place_latest_with_room (data_list : list alert_data) (s : alerter) :
  maxsize s <= 0 \/
  Z.of_nat (length (publishing_queue s) + length data_list) <= maxsize s ->
  exists (s' : alerter) (evs : list event),
    _place_latest_data_on_queue data_list s = (Returns tt, s') /\
    trace s' = trace s ++ evs /\
    gets_of evs = [] /\
    publishing_queue s' = publishing_queue s ++ (queue_entry <$> data_list).
Proof.
  intros Hcase.
  assert (Hok : within_maxsize s).
  { intros HN. destruct Hcase as [H|H]; lia. }
  destruct (place_latest_events data_list s Hok)
    as (s' & evs & Hrun & Htrace & _ & _ & _ & _ & Hputs & Hkeep & Hroom).
  exists s', evs. specialize (Hroom Hcase).
  rewrite Hroom, Hputs in Hkeep. done.
Qed.

(** ** The handler up to the enqueueing *)

Lemma puts_of_logs (evs : list event) :
  Forall (fun ev => is_log ev = true) evs -> puts_of evs = [].
Proof.
  induction 1 as [|ev evs Hev _ IH]; [done|].
  destruct ev; try discriminate. exact IH.
Qed.

Lemma gets_of_logs (evs : list event) :
  Forall (fun ev => is_log ev = true) evs -> gets_of evs = [].
Proof.
  induction 1 as [|ev evs Hev _ IH]; [done|].
  destruct ev; try discriminate. exact IH.
Qed.

(** X7.  For a decodable message and a queue within its [maxsize], what
    lines 62 to 112 of [_process_data] come to is decided by [basic_ack]
    alone, whatever the payload: when [basic_ack] raises, the exception
    leaves the handler with nothing put and the queue as it was; when it
    does not, the handler goes on (no [put] or [get] waits, no error of the
    classification leaves) with the queue still within its [maxsize]. *)
Theorem enqueue_outcome_follows_ack (delivery_tag : Z) (d : json) (s : alerter) :
  within_maxsize s ->
  let acked :=
    count_call
      (record_events
         ((Log INFO (Processing d) :: attempt_log d) ++
          [Rabbit (basic_ack delivery_tag false)]) s) in
  match broker s (broker_calls s) with
  | Some e =>
      classify_ack_enqueue delivery_tag (Encodes d) s = (Raises e, acked) /\
      publishing_queue acked = publishing_queue s
  | None =>
      exists (s' : alerter) (evs : list event),
        classify_ack_enqueue delivery_tag (Encodes d) s = (Returns tt, s') /\
        trace s' = trace acked ++ evs /\
        within_maxsize s'
  end.
Proof.
  intros Hok acked.
  assert (Hrun : classify_ack_enqueue delivery_tag (Encodes d) s =
    match broker s (broker_calls s) with
    | Some e => (Raises e, acked)
    | None =>
        (if bool_decide ((classify d).2 <> None) then mret tt
         else _place_latest_data_on_queue (classify d).1) acked
    end).
  { rewrite classify_ack_enqueue_decoded.
    set (s1 := record_events (Log INFO (Processing d) :: attempt_log d) s).
    assert (Hacked :
      count_call (record_event (Rabbit (basic_ack delivery_tag false)) s1) = acked).
    { subst acked s1. unfold record_event. by rewrite record_events_app. }
    unfold mbind, rabbitmq.
    change (broker s1 (broker_calls s1)) with (broker s (broker_calls s)).
    rewrite Hacked. by destruct (broker s (broker_calls s)). }
  rewrite Hrun. destruct (broker s (broker_calls s)) as [e|]; [done|].
  destruct (bool_decide ((classify d).2 <> None)).
  - exists acked, []. by rewrite app_nil_r.
  - destruct (place_latest_events (classify d).1 acked Hok)
      as (s' & evs & Hplace & Htrace & _ & _ & _ & Hok' & _).
    by exists s', evs.
Qed.

(** X8.  When the classification of a decodable message raises nothing
    and [basic_ack] does not raise, lines 62 to 112 of [_process_data] put
    on the queue one entry per alert of the classification, in its order,
    each addressed to [ALERT_EXCHANGE] with the routing key
    ['alert_router.github'], and nothing else; no entry leaves the queue
    but by eviction. *)
Theorem enqueue_puts_classified (delivery_tag : Z) (d : json)
    (l : list alert_data) (s : alerter) :
  classify d = (l, None) ->
  broker s (broker_calls s) = None ->
  within_maxsize s ->
  exists (s' : alerter) (evs : list event),
    classify_ack_enqueue delivery_tag (Encodes d) s = (Returns tt, s') /\
    trace s' = trace s ++ evs /\
    puts_of evs =
      (fun alert => {| exchange := ALERT_EXCHANGE;
                       routing_key := "alert_router.github";
                       data := alert |}) <$> l /\
    publishing_queue s ++ puts_of evs = gets_of evs ++ publishing_queue s'.
Proof.
  intros Hc Hack Hok. rewrite classify_ack_enqueue_decoded.
  set (logged := Log INFO (Processing d) :: attempt_log d).
  set (s1 := record_events logged s).
  unfold mbind at 1. unfold rabbitmq at 1.
  change (broker s1 (broker_calls s1)) with (broker s (broker_calls s)).
  rewrite Hack, Hc. simpl.
  set (s2 := count_call _).
  destruct (place_latest_events l s2 Hok)
    as (s' & evs & Hrun & Htrace & _ & _ & _ & _ & Hputs & Hkeep & _).
  exists s', (logged ++ Rabbit (basic_ack delivery_tag false) :: evs).
  split; [done|].
  assert (Hlogged : Forall (fun ev => is_log ev = true) logged).
  { constructor; [done|apply attempt_log_is_log]. }
  rewrite puts_of_app, gets_of_app.
  rewrite (puts_of_logs logged Hlogged), (gets_of_logs logged Hlogged).
  change (puts_of (Rabbit (basic_ack delivery_tag false) :: evs)) with (puts_of evs).
  change (gets_of (Rabbit (basic_ack delivery_tag false) :: evs)) with (gets_of evs).
  split; [|split; [exact Hputs|exact Hkeep]].
  rewrite Htrace. simpl. by rewrite <- !app_assoc.
Qed.

(** ** The consumption loop *)

(** X9.  The loop of [_alert_classifier_process] never returns: it goes
    on until an exception leaves it (or waits for the next delivery), and
    the exception that leaves it is never an [AMQPChannelError] nor a
    [MessageWasNotDeliveredException]. *)
Theorem consuming_loop_leaves_by_raising (inbox : list delivery)
    (entering : bool) (s : alerter) :
  match (consuming_loop inbox entering s).1 with
  | Returns _ => False
  | Raises e => e <> AMQPChannelError /\ e <> MessageWasNotDeliveredException
  | Blocks => True
  end.
Proof.
  revert entering s. induction inbox as [|d rest IH]; intros entering s.
  - simpl. unfold mbind. by destruct entering.
  - rewrite consuming_loop_cons.
    destruct (consume d (enter entering s)) as [[[|]|e|] s1]; try apply IH; [|done].
    destruct e; simpl; try apply IH; done.
Qed.

(** X10.  A message whose body cannot be decoded is fatal: the exception
    leaves [_process_data] before the [try], so the message is not
    acknowledged and nothing is put or published; the loop logs the
    exception and raises it to its caller, and consumes no further
    delivery. *)
Theorem undecodable_message_is_fatal (delivery_tag : Z) (rest : list delivery)
    (entering : bool) (s : alerter) :
  _process_data delivery_tag Undecodable s = (Raises JSONDecodeError, s) /\
  consuming_loop (Delivered delivery_tag Undecodable :: rest) entering s =
    (Raises JSONDecodeError,
     record_event (Log ERROR (ExceptionInfo JSONDecodeError)) (enter entering s)).
Proof.
  split; [done|]. rewrite consuming_loop_cons. reflexivity.
Qed.

(** ** Initialisation *)






(** ** The prefetch count *)

(** X13.  For a [maxsize] from 0 to below [2 ^ 52] the prefetch count
    [round(maxsize / 5)] is never negative, does not exceed [maxsize],
    grows with [maxsize], and is 0 exactly for a [maxsize] of at most 2. *)
Theorem prefetch_count_grows (N N' : Z) :
  0 <= N <= N' -> N' < 2 ^ 52 ->
  exists n n',
    prefetch_count_of N = inr n /\
    prefetch_count_of N' = inr n' /\
    0 <= n <= n' /\ n <= N /\ (n = 0 <-> N <= 2).
Proof.
  intros HN HN'.
  exists ((2 * N + 5) / 10), ((2 * N' + 5) / 10).
  rewrite !prefetch_count_nearest by lia.
  split; [done|]. split; [done|].
  pose proof (Z.div_mod (2 * N + 5) 10 ltac:(lia)).
  pose proof (Z.mod_pos_bound (2 * N + 5) 10 ltac:(lia)).
  assert ((2 * N + 5) / 10 <= (2 * N' + 5) / 10)
    by (apply Z.div_le_mono; lia).
  lia.
Qed.

(** ** An undelivered entry, from one message to the next *)




End GithubAlerter.

(** * The properties on sample values *)



Lemma classification_error_places_nothing_witness :
  classify no_int_of_str sample_partial =
    ([NewGitHubReleaseAlert (JStr "x") (JStr "a") (JStr "v1") "INFO"
        (JInt 100) (JStr "p") (JStr "r")], Some (KeyError "1")) /\
  publishing_queue
    (classify_ack_enqueue "alert" no_int_of_str 7 (Encodes sample_partial)
       (sample_alerter [sample_entry "q"] 2 reliable_broker)).2 =
    [sample_entry "q"].
Proof.
  assert (Hc : classify no_int_of_str sample_partial =
    ([NewGitHubReleaseAlert (JStr "x") (JStr "a") (JStr "v1") "INFO"
        (JInt 100) (JStr "p") (JStr "r")], Some (KeyError "1")))
    by reflexivity.
  split; [exact Hc|].
  exact (proj1 (classification_error_places_nothing "alert" no_int_of_str 7
                  sample_partial _ _
                  (sample_alerter [sample_entry "q"] 2 reliable_broker) Hc)).
Defined.

Lemma place_latest_drops_oldest_witness :
  exists s',
    _place_latest_data_on_queue "alert"
      [sample_alert "a"; sample_alert "b"; sample_alert "c"]
      (sample_alerter [] 2 reliable_broker) = (Returns tt, s') /\
    publishing_queue s' = [sample_entry "b"; sample_entry "c"].
Proof.
  destruct (place_latest_drops_oldest "alert"
              [sample_alert "a"; sample_alert "b"; sample_alert "c"]
              (sample_alerter [] 2 reliable_broker))
    as (s' & Hrun & _ & _ & _ & _ & Hfill); [simpl; lia|simpl; lia|].
  exists s'. split; [exact Hrun|].
  exact (proj1 (Hfill eq_refl eq_refl)).
Defined.

(** The claim C2 as it is stated fails on a message whose body is not the
    encoding of a JSON text: [json.loads] raises before the [try]
    statement, the exception leaves the handler with nothing done, and the
    message is not acknowledged. *)
Lemma undecodable_not_acknowledged_counterexample :
  let s := sample_alerter [sample_entry "q"] 2 reliable_broker in
  let run := _process_data "alert" no_int_of_str 7 Undecodable s in
  run.1 = Raises JSONDecodeError /\
  trace run.2 = [] /\
  (Rabbit (basic_ack 7 false) ∉ trace run.2) /\
  broker_calls run.2 = 0%nat /\
  publishing_queue run.2 = [sample_entry "q"].
Proof.
  intros s run. repeat split; try reflexivity.
  change (trace run.2) with (@nil event). apply not_elem_of_nil.
Qed.



Lemma unexpected_payload_recovered_witness :
  let s := sample_alerter [sample_entry "q"] 2 reliable_broker in
  classify no_int_of_str (obj []) = ([], Some ReceivedUnexpectedDataException) /\
  publishing_queue
    (classify_ack_enqueue "alert" no_int_of_str 7 (Encodes (obj [])) s).2 =
    [sample_entry "q"].
Proof.
  intros s.
  destruct (unexpected_payload_recovered "alert" no_int_of_str 7 (obj []) s
              eq_refl eq_refl)
    as (e & Hc & _ & _ & Hobj & _ & Hq & _).
  split; [|exact Hq].
  rewrite Hc. by rewrite (Hobj (ex_intro _ _ eq_refl)).
Defined.

(** The claim C6 as it is stated fails on a payload that is no object: on
    the number 5, which has neither key, the membership test of line 69
    raises [TypeError], and it is [TypeError] that is logged; so does the
    subscript of line 70 on a str in which ['result'] occurs.  No
    [ReceivedUnexpectedDataException] is raised. *)
Lemma scalar_payload_counterexample :
  has_key "result" (JInt 5) = false /\
  has_key "error" (JInt 5) = false /\
  classify no_int_of_str (JInt 5) = ([], Some TypeError) /\
  classify no_int_of_str (JInt 5) <> ([], Some ReceivedUnexpectedDataException) /\
  trace (_process_data "alert" no_int_of_str 7 (Encodes (JInt 5))
           (sample_alerter [] 2 reliable_broker)).2 =
    [Log INFO (Processing (JInt 5)); Log ERROR (ErrorProcessing (JInt 5));
     Log ERROR (ExceptionInfo TypeError); Rabbit (basic_ack 7 false)] /\
  has_key "result" (JStr "no result") = false /\
  has_key "error" (JStr "no result") = false /\
  classify no_int_of_str (JStr "no result") = ([], Some TypeError).
Proof. repeat split; try reflexivity. discriminate. Qed.

Lemma classify_error_one_alert_witness :
  classify no_int_of_str (JObj sample_failure_fields) = ([sample_alert "x"], None).
Proof.
  apply (classify_error_one_alert no_int_of_str sample_failure_fields
           sample_error sample_error_meta); reflexivity.
Defined.

Lemma consuming_loop_dispatch_witness :
  let s := sample_alerter [] 2 reliable_broker in
  consuming_loop "alert" no_int_of_str
    [Failed AMQPChannelError; Failed AMQPConnectionError] true s =
  consuming_loop "alert" no_int_of_str [Failed AMQPConnectionError] true
    (record_event StartConsuming s).
Proof.
  intros s.
  destruct (consuming_loop_dispatch "alert" no_int_of_str
              (Failed AMQPChannelError) [Failed AMQPConnectionError] true s
              (record_event StartConsuming s) AMQPChannelError eq_refl)
    as [Hchannel _].
  exact (proj1 (Hchannel eq_refl)).
Defined.

Lemma classify_result_before_error_witness :
  classify no_int_of_str (JObj sample_both_fields) =
    ([NewGitHubReleaseAlert (JStr "x") (JStr "a") (JStr "v1") "INFO"
        (JInt 100) (JStr "p") (JStr "r");
      NewGitHubReleaseAlert (JStr "x") (JStr "b") (JStr "v2") "INFO"
        (JInt 100) (JStr "p") (JStr "r")], None).
Proof.
  destruct (classify_result_before_error no_int_of_str sample_both_fields
              (sample_result 3 1 two_releases) sample_error eq_refl eq_refl)
    as (_ & Hemits & _).
  apply (Hemits sample_meta (sample_data 3 1 two_releases) (sample_counters 3 1)
           two_releases 3 1
           (fun i => if i =? 0 then sample_release "a" "v1"
                     else sample_release "b" "v2")
           (fun i => if i =? 0 then JStr "a" else JStr "b")
           (fun i => if i =? 0 then JStr "v1" else JStr "v2")
           (JStr "x") (JInt 100) (JStr "p") (JStr "r"));
    try reflexivity.
  intros i Hi. assert (i = 0 \/ i = 1) as [-> | ->] by lia;
    repeat split; reflexivity.
Defined.

Lemma prefetch_is_nearest_fifth_witness :
  exists s',
    _initialize_alerter "alert" (sample_alerter [] 1000 reliable_broker) =
      (Returns tt, s') /\
    trace s' = initialization "alert" 200.
Proof.
  destruct (prefetch_is_nearest_fifth "alert"
              (sample_alerter [] 1000 reliable_broker))
    as [Hrun _]; [split; [simpl; lia|reflexivity]|reflexivity|].
  exact Hrun.
Defined.

(** The claim C10 as it is stated fails for a queue of 8 entries: the
    prefetch count is 2, which is neither the quotient of 8 by 5 nor a
    fifth of 8. *)
Lemma prefetch_not_fifth_counterexample :
  prefetch_count_of 8 = inr 2 /\
  trace (_initialize_alerter "alert" (sample_alerter [] 8 reliable_broker)).2 =
    initialization "alert" 2 /\
  2 <> 8 / 5 /\ 5 * 2 <> 8.
Proof. repeat split; try reflexivity; vm_compute; discriminate. Qed.

(** * The further properties on sample values *)

Lemma classify_result_count_witness :
  Z.of_nat (length (classify no_int_of_str sample_success).1) <= Z.max 0 (3 - 1).
Proof.
  exact (proj1 (classify_result_count no_int_of_str sample_success
                  (sample_result 3 1 two_releases)
                  (sample_data 3 1 two_releases) (sample_counters 3 1) 3 1
                  eq_refl eq_refl eq_refl eq_refl eq_refl)).
Defined.

Lemma classify_stops_at_missing_release_witness :
  classify no_int_of_str sample_partial =
    ([NewGitHubReleaseAlert (JStr "x") (JStr "a") (JStr "v1") "INFO"
        (JInt 100) (JStr "p") (JStr "r")], Some (KeyError "1")).
Proof.
  apply (classify_stops_at_missing_release no_int_of_str sample_partial
           (sample_result 3 1 one_release) sample_meta
           (sample_data 3 1 one_release) (sample_counters 3 1)
           (list_to_map [("0", sample_release "a" "v1")]) 3 1 1
           (fun _ => sample_release "a" "v1")
           (fun _ => JStr "a") (fun _ => JStr "v1")
           (JStr "x") (JInt 100) (JStr "p") (JStr "r"));
    try reflexivity; try lia.
  intros i Hi. assert (i = 0) as -> by lia. repeat split; reflexivity.
Defined.

Lemma classify_emits_on_ints_only_witness :
  is_int (JInt 3) = true /\ is_int (JInt 1) = true /\
  exists c p, py_int no_int_of_str (JInt 3) = inr c /\
              py_int no_int_of_str (JInt 1) = inr p /\ p < c.
Proof.
  apply (classify_emits_on_ints_only no_int_of_str sample_success
           (sample_result 3 1 two_releases)
           (sample_data 3 1 two_releases) (sample_counters 3 1)
           (JInt 3) (JInt 1)); try reflexivity.
  vm_compute. discriminate.
Defined.

Lemma classify_error_succeeds_iff_witness :
  length (classify no_int_of_str (JObj sample_failure_fields)).1 = 1%nat.
Proof.
  exact (proj2 (classify_error_succeeds_iff no_int_of_str sample_failure_fields
                  sample_error eq_refl eq_refl)).
Defined.

Lemma place_latest_conserves_witness :
  exists (s' : alerter) (evs : list event),
    _place_latest_data_on_queue "alert"
      [sample_alert "a"; sample_alert "b"; sample_alert "c"]
      (sample_alerter [] 2 reliable_broker) = (Returns tt, s') /\
    trace s' = [] ++ evs /\
    puts_of evs = [sample_entry "a"; sample_entry "b"; sample_entry "c"] /\
    [] ++ [sample_entry "a"; sample_entry "b"; sample_entry "c"] =
      gets_of evs ++ publishing_queue s' /\
    within_maxsize s'.
Proof.
  apply (place_latest_conserves "alert"
           [sample_alert "a"; sample_alert "b"; sample_alert "c"]
           (sample_alerter [] 2 reliable_broker)).
  intros _. simpl. lia.
Defined.

Lemma place_latest_with_room_witness :
  exists (s' : alerter) (evs : list event),
    _place_latest_data_on_queue "alert" [sample_alert "a"; sample_alert "b"]
      (sample_alerter [sample_entry "q"] 0 reliable_broker) = (Returns tt, s') /\
    trace s' = [] ++ evs /\
    gets_of evs = [] /\
    publishing_queue s' = [sample_entry "q"; sample_entry "a"; sample_entry "b"].
Proof.
  apply (place_latest_with_room "alert" [sample_alert "a"; sample_alert "b"]
           (sample_alerter [sample_entry "q"] 0 reliable_broker)).
  left. simpl. lia.
Defined.

Lemma enqueue_outcome_follows_ack_witness :
  exists (s' : alerter),
    classify_ack_enqueue "alert" no_int_of_str 7 (Encodes sample_success)
      (sample_alerter [] 2 reliable_broker) = (Returns tt, s') /\
    within_maxsize s'.
Proof.
  assert (Hok : within_maxsize (sample_alerter [] 2 reliable_broker))
    by (intros _; simpl; lia).
  pose proof (enqueue_outcome_follows_ack "alert" no_int_of_str 7 sample_success
                (sample_alerter [] 2 reliable_broker) Hok) as Hrun.
  simpl in Hrun. destruct Hrun as (s' & evs & Hrun & _ & Hok').
  by exists s'.
Defined.

Lemma enqueue_puts_classified_witness :
  exists (s' : alerter) (evs : list event),
    classify_ack_enqueue "alert" no_int_of_str 7
      (Encodes (JObj sample_failure_fields))
      (sample_alerter [] 2 reliable_broker) = (Returns tt, s') /\
    trace s' = [] ++ evs /\
    puts_of evs = [sample_entry "x"] /\
    [] ++ puts_of evs = gets_of evs ++ publishing_queue s'.
Proof.
  apply (enqueue_puts_classified "alert" no_int_of_str 7
           (JObj sample_failure_fields) [sample_alert "x"]
           (sample_alerter [] 2 reliable_broker)); try reflexivity.
  intros _. simpl. lia.
Defined.



Lemma prefetch_count_grows_witness :
  exists n n',
    prefetch_count_of 8 = inr n /\ prefetch_count_of 1000 = inr n' /\
    0 <= n <= n' /\ n <= 8 /\ (n = 0 <-> 8 <= 2).
Proof.
  apply (prefetch_count_grows 8 1000); [lia|reflexivity].
Defined.
